(** * FileTrackerService: a shallow embedding of
      packages/core/src/utils/fileTrackerService.ts

    The service keeps an insertion-ordered [Map] from paths to entries,
    reads the wall clock with [new Date()] and asks a [FileStateTracker]
    (the freshness evaluator) about the live file.  The clock and the file
    system are outside the service: they are modelled as a host with a
    state of its own that every call threads through.  Each async method
    is modelled as running to completion, one after the other. *)

From Stdlib Require Import ZArith List String Bool Lia Permutation.
Import ListNotations.
Open Scope string_scope.
Open Scope Z_scope.

(** ** Data model *)

(** [enum FileStatus]. *)
Inductive FileStatus : Type :=
| NOT_READ
| READ_CURRENT
| READ_STALE
| READ_ERROR.

Definition FileStatus_eqb (a b : FileStatus) : bool :=
  match a, b with
  | NOT_READ, NOT_READ => true
  | READ_CURRENT, READ_CURRENT => true
  | READ_STALE, READ_STALE => true
  | READ_ERROR, READ_ERROR => true
  | _, _ => false
  end.

(** [Object.values(FileStatus)], in declaration order. *)
Definition FileStatus_values : list FileStatus :=
  [NOT_READ; READ_CURRENT; READ_STALE; READ_ERROR].

(** Modelled from the spec: [FileState] and [FileFreshnessResult] are
    declared in fileStateTracker.ts, which is not among the sources.  A
    snapshot carries the content, the modification time (milliseconds) and
    the byte size, as the tests build it; of a freshness result the service
    reads [isFresh] only. *)
Record FileState : Type := mkFileState {
  content : string;
  mtime : Z;
  size : Z
}.

Record FileFreshnessResult : Type := mkFreshness {
  isFresh : bool
}.

(** [interface FileEntry]; a [Date] is its number of milliseconds, the
    optional [error] is [None] when undefined. *)
Record FileEntry : Type := mkEntry {
  path : string;
  state : FileState;
  status : FileStatus;
  firstReadAt : Z;
  lastUpdatedAt : Z;
  error : option string
}.

Definition set_state (s : FileState) (e : FileEntry) : FileEntry :=
  mkEntry (path e) s (status e) (firstReadAt e) (lastUpdatedAt e) (error e).
Definition set_status (s : FileStatus) (e : FileEntry) : FileEntry :=
  mkEntry (path e) (state e) s (firstReadAt e) (lastUpdatedAt e) (error e).
Definition set_lastUpdatedAt (t : Z) (e : FileEntry) : FileEntry :=
  mkEntry (path e) (state e) (status e) (firstReadAt e) t (error e).
Definition set_error (m : option string) (e : FileEntry) : FileEntry :=
  mkEntry (path e) (state e) (status e) (firstReadAt e) (lastUpdatedAt e) m.

(** [interface FileTrackerServiceOptions]: every field is optional. *)
Record FileTrackerServiceOptions : Type := mkOptions {
  opt_useContentHash : option bool;
  opt_generateDiffs : option bool;
  opt_maxTrackedFiles : option Z;
  opt_trackAllFiles : option bool
}.

(** [Required<FileTrackerServiceOptions>]. *)
Record RequiredOptions : Type := mkRequired {
  useContentHash : bool;
  generateDiffs : bool;
  maxTrackedFiles : Z;
  trackAllFiles : bool
}.

(** The operator [??]. *)
Definition nullish {A : Type} (o : option A) (d : A) : A :=
  match o with
  | Some a => a
  | None => d
  end.

(** A thrown JavaScript value: an [Error] with its message, or anything
    else, kept as what [String(error)] gives. *)
Inductive JsValue : Type :=
| JsError (message : string)
| JsOther (asString : string).

(** [error instanceof Error ? error.message : String(error)]. *)
Definition errorText (v : JsValue) : string :=
  match v with
  | JsError m => m
  | JsOther s => s
  end.

(** ** The insertion-ordered Map *)

Module JsMap.

Definition t : Type := list (string * FileEntry).

Definition empty : t := [].

Fixpoint get (k : string) (m : t) : option FileEntry :=
  match m with
  | [] => None
  | (k', v) :: m' => if String.eqb k k' then Some v else get k m'
  end.

Definition has (k : string) (m : t) : bool :=
  match get k m with
  | Some _ => true
  | None => false
  end.

(** [set] keeps the position of a key that is present and appends a new
    key at the end. *)
Fixpoint set (k : string) (v : FileEntry) (m : t) : t :=
  match m with
  | [] => [(k, v)]
  | (k', v') :: m' =>
      if String.eqb k k' then (k', v) :: m' else (k', v') :: set k v m'
  end.

Definition delete (k : string) (m : t) : t :=
  filter (fun kv => negb (String.eqb k (fst kv))) m.

Definition size (m : t) : Z := Z.of_nat (List.length m).

Definition values (m : t) : list FileEntry := map snd m.

Definition keys (m : t) : list string := map fst m.

(** The object stored under [k], changed in place. *)
Fixpoint update (k : string) (f : FileEntry -> FileEntry) (m : t) : t :=
  match m with
  | [] => []
  | (k', v) :: m' =>
      if String.eqb k k' then (k', f v) :: m' else (k', v) :: update k f m'
  end.

End JsMap.

(** ** The host: wall clock and freshness evaluator *)

Inductive Outcome (A : Type) : Type :=
| Returned (a : A)
| Thrown (v : JsValue).
Arguments Returned {A} a.
Arguments Thrown {A} v.

(** [now] is [new Date()]; [getFileState] and [checkFreshness] are the
    two methods of [FileStateTracker] the service calls.  The class is not
    among the sources, so its behaviour is a parameter: each call answers
    from the host's state [W] (the file system as it is at that moment)
    and may change it. *)
Record Host (W : Type) : Type := mkHost {
  now : W -> Z * W;
  getFileState : string -> W -> Outcome FileState * W;
  checkFreshness : string -> FileState -> W -> Outcome FileFreshnessResult * W
}.
Arguments now {W} h w.
Arguments getFileState {W} h filePath w.
Arguments checkFreshness {W} h filePath st w.

(** The service object together with the world it runs in. *)
Record State (W : Type) : Type := mkState {
  trackedFiles : JsMap.t;
  options : RequiredOptions;
  world : W
}.
Arguments mkState {W} trackedFiles options world.
Arguments trackedFiles {W} s.
Arguments options {W} s.
Arguments world {W} s.

(** ** A state monad with exceptions *)

Definition M (W A : Type) : Type := State W -> Outcome A * State W.

Definition ret {W A : Type} (a : A) : M W A := fun s => (Returned a, s).

Definition bind {W A B : Type} (c : M W A) (k : A -> M W B) : M W B :=
  fun s =>
    match c s with
    | (Returned a, s') => k a s'
    | (Thrown v, s') => (Thrown v, s')
    end.

Definition throw {W A : Type} (v : JsValue) : M W A := fun s => (Thrown v, s).

(** [try { body } catch (error) { handler }]: what [body] did to the
    state before it threw stays done. *)
Definition try_catch {W A : Type} (body : M W A) (handler : JsValue -> M W A)
  : M W A :=
  fun s =>
    match body s with
    | (Returned a, s') => (Returned a, s')
    | (Thrown v, s') => handler v s'
    end.

Declare Scope js_scope.
Delimit Scope js_scope with js.
Notation "x <- c ;; k" := (bind c (fun x => k))
  (at level 61, c at next level, right associativity) : js_scope.
Notation "c ;; k" := (bind c (fun _ => k))
  (at level 61, right associativity) : js_scope.
Open Scope js_scope.

Section Service.

Context {W : Type}.
Variable host : Host W.

Definition getTracked : M W JsMap.t :=
  fun s => (Returned (trackedFiles s), s).

Definition getOptions : M W RequiredOptions :=
  fun s => (Returned (options s), s).

Definition modifyTracked (f : JsMap.t -> JsMap.t) : M W unit :=
  fun s => (Returned tt, mkState (f (trackedFiles s)) (options s) (world s)).

(** A field assignment on [entry], the object the map holds under
    [filePath]: a call runs to completion before the next one starts, so
    the object a method fetched is still the one stored under its path
    when the method assigns to it. *)
Definition assign (filePath : string) (f : FileEntry -> FileEntry)
  : M W unit :=
  modifyTracked (JsMap.update filePath f).

Definition liftHost {A : Type} (f : W -> Outcome A * W) : M W A :=
  fun s =>
    let (r, w) := f (world s) in
    (r, mkState (trackedFiles s) (options s) w).

Definition newDate : M W Z :=
  liftHost (fun w => let (t, w') := now host w in (Returned t, w')).

(** [constructor(options = {})]. *)
Definition constructor (o : FileTrackerServiceOptions) (w : W) : State W :=
  mkState JsMap.empty
    (mkRequired (nullish (opt_useContentHash o) false)
                (nullish (opt_generateDiffs o) true)
                (nullish (opt_maxTrackedFiles o) 1000)
                (nullish (opt_trackAllFiles o) false))
    w.

(** One turn of the loop of [evictOldestEntry]. *)
Definition olderOf (acc : option string * Z) (kv : string * FileEntry)
  : option string * Z :=
  let (oldestPath, oldestTime) := acc in
  if firstReadAt (snd kv) <? oldestTime
  then (Some (fst kv), firstReadAt (snd kv))
  else (oldestPath, oldestTime).

Definition scanOldest (m : JsMap.t) (start : Z) : option string * Z :=
  fold_left olderOf m (None, start).

(** [if (oldestPath)]: undefined and the empty string are falsy. *)
Definition truthy (p : option string) : bool :=
  match p with
  | Some s => negb (String.eqb s "")
  | None => false
  end.

Definition evictOldestEntry : M W unit :=
  start <- newDate ;;
  m <- getTracked ;;
  match fst (scanOldest m start) with
  | Some oldestPath =>
      if truthy (Some oldestPath)
      then modifyTracked (JsMap.delete oldestPath)
      else ret tt
  | None => ret tt
  end.

Definition registerFile (filePath : string) (st : FileState) : M W unit :=
  t1 <- newDate ;;
  t2 <- newDate ;;
  let entry := mkEntry filePath st READ_CURRENT t1 t2 None in
  modifyTracked (JsMap.set filePath entry) ;;
  m <- getTracked ;;
  o <- getOptions ;;
  if JsMap.size m >? maxTrackedFiles o
  then evictOldestEntry
  else ret tt.

Definition updateFileState (filePath : string) (newState : FileState)
  : M W unit :=
  m <- getTracked ;;
  match JsMap.get filePath m with
  | None => throw (JsError ("File not tracked: " ++ filePath)%string)
  | Some _ =>
      assign filePath (set_state newState) ;;
      t <- newDate ;;
      assign filePath (set_lastUpdatedAt t) ;;
      try_catch
        (freshnessResult <- liftHost (checkFreshness host filePath newState) ;;
         assign filePath
           (set_status (if isFresh freshnessResult
                        then READ_CURRENT else READ_STALE)) ;;
         assign filePath (set_error None))
        (fun err =>
           assign filePath (set_status READ_ERROR) ;;
           assign filePath (set_error (Some (errorText err))))
  end.

Definition getFileStatus (filePath : string) (s : State W)
  : option FileEntry :=
  JsMap.get filePath (trackedFiles s).

Definition getAllTrackedFiles (s : State W) : list FileEntry :=
  JsMap.values (trackedFiles s).

Definition getFilesByStatus (st : FileStatus) (s : State W)
  : list FileEntry :=
  filter (fun entry => FileStatus_eqb (status entry) st)
         (getAllTrackedFiles s).

Definition isFileStale (filePath : string) : M W bool :=
  m <- getTracked ;;
  match JsMap.get filePath m with
  | None => ret false
  | Some entry =>
      try_catch
        (freshnessResult <-
           liftHost (checkFreshness host filePath (state entry)) ;;
         ret (negb (isFresh freshnessResult)))
        (fun _ => ret true)
  end.

Definition refreshFileState (filePath : string) : M W bool :=
  m <- getTracked ;;
  match JsMap.get filePath m with
  | None => ret false
  | Some _ =>
      try_catch
        (newState <- liftHost (getFileState host filePath) ;;
         updateFileState filePath newState ;;
         ret true)
        (fun err =>
           assign filePath (set_status READ_ERROR) ;;
           assign filePath (set_error (Some (errorText err))) ;;
           t <- newDate ;;
           assign filePath (set_lastUpdatedAt t) ;;
           ret false)
  end.

Definition removeFile (filePath : string) : M W bool :=
  m <- getTracked ;;
  modifyTracked (JsMap.delete filePath) ;;
  ret (JsMap.has filePath m).

Definition clear : M W unit :=
  modifyTracked (fun _ => JsMap.empty).

Definition autoTrackFile (filePath : string) (st : FileState) : M W unit :=
  o <- getOptions ;;
  if trackAllFiles o then registerFile filePath st else ret tt.

End Service.

(** ** getStats *)

(** A JavaScript number as the counters use it: an integer, or [NaN]
    (what [undefined++] stores). *)
Inductive JsNumber : Type :=
| Num (z : Z)
| NaN.

(** [Record<FileStatus, number>], an object with one property per key
    assigned so far. *)
Module Stats.

Definition t : Type := list (FileStatus * JsNumber).

Fixpoint get (k : FileStatus) (o : t) : option JsNumber :=
  match o with
  | [] => None
  | (k', v) :: o' => if FileStatus_eqb k k' then Some v else get k o'
  end.

Fixpoint set (k : FileStatus) (v : JsNumber) (o : t) : t :=
  match o with
  | [] => [(k, v)]
  | (k', v') :: o' =>
      if FileStatus_eqb k k' then (k', v) :: o' else (k', v') :: set k v o'
  end.

(** [o[k]++]. *)
Definition incr (k : FileStatus) (o : t) : t :=
  match get k o with
  | Some (Num n) => set k (Num (n + 1)) o
  | Some NaN => set k NaN o
  | None => set k NaN o
  end.

(** The number read back from [o[k]]; [None] for undefined or [NaN]. *)
Definition count (k : FileStatus) (o : t) : option Z :=
  match get k o with
  | Some (Num n) => Some n
  | _ => None
  end.

End Stats.

Definition zeroStats : Stats.t :=
  fold_left (fun acc st => Stats.set st (Num 0) acc) FileStatus_values [].

Definition getStats {W : Type} (s : State W) : Stats.t :=
  fold_left (fun stats entry => Stats.incr (status entry) stats)
            (JsMap.values (trackedFiles s)) zeroStats.

(** ** Histories of calls *)

(** The calls that can change the service.  The getters ([getFileStatus],
    [getAllTrackedFiles], [getFilesByStatus], [getStats]) read only. *)
Inductive Call : Type :=
| RegisterFile (filePath : string) (st : FileState)
| UpdateFileState (filePath : string) (newState : FileState)
| IsFileStale (filePath : string)
| RefreshFileState (filePath : string)
| RemoveFile (filePath : string)
| Clear
| AutoTrackFile (filePath : string) (st : FileState).

Section Histories.

Context {W : Type}.
Variable host : Host W.

(** The state a call leaves behind, whether it returned or threw. *)
Definition exec (c : Call) (s : State W) : State W :=
  match c with
  | RegisterFile p st => snd (registerFile host p st s)
  | UpdateFileState p st => snd (updateFileState host p st s)
  | IsFileStale p => snd (isFileStale host p s)
  | RefreshFileState p => snd (refreshFileState host p s)
  | RemoveFile p => snd (removeFile p s)
  | Clear => snd (clear s)
  | AutoTrackFile p st => snd (autoTrackFile host p st s)
  end.

Definition run (calls : list Call) (s : State W) : State W :=
  fold_left (fun s c => exec c s) calls s.

End Histories.

(** ** A scripted host, for running the service on concrete inputs *)

(** The live files at one moment: path, and what [stat] and [readFile]
    give for it. *)
Definition Disk : Type := list (string * FileState).

Fixpoint statFile (p : string) (d : Disk) : option FileState :=
  match d with
  | [] => None
  | (q, st) :: d' => if String.eqb p q then Some st else statFile p d'
  end.

(** [readings] are the values the next calls of [new Date()] return (0
    once they are used up); [disks] are the file system as the next
    accesses of the evaluator find it (empty once they are used up). *)
Record Script : Type := mkScript {
  readings : list Z;
  disks : list Disk
}.

Definition scriptedNow (w : Script) : Z * Script :=
  match readings w with
  | [] => (0, w)
  | t :: ts => (t, mkScript ts (disks w))
  end.

Definition nextDisk (w : Script) : Disk * Script :=
  match disks w with
  | [] => ([], w)
  | d :: ds => (d, mkScript (readings w) ds)
  end.

(** Modelled from the spec: the evaluator of fileStateTracker.ts, which is
    not among the sources, in its metadata mode.  [capture] gives the live
    snapshot and fails when the path cannot be read; [compare] is fresh iff
    both the modification time and the size match the live file, and fails
    when the path is no longer there. *)
Definition scriptedGetFileState (p : string) (w : Script)
  : Outcome FileState * Script :=
  let (d, w') := nextDisk w in
  match statFile p d with
  | Some st => (Returned st, w')
  | None => (Thrown (JsError "ENOENT: no such file or directory"), w')
  end.

Definition scriptedCheckFreshness (p : string) (snapshot : FileState)
                                  (w : Script)
  : Outcome FileFreshnessResult * Script :=
  let (d, w') := nextDisk w in
  match statFile p d with
  | Some live =>
      (Returned (mkFreshness ((mtime live =? mtime snapshot)
                              && (size live =? size snapshot))), w')
  | None => (Thrown (JsError "ENOENT: no such file or directory"), w')
  end.

Definition scriptedHost : Host Script :=
  mkHost Script scriptedNow scriptedGetFileState scriptedCheckFreshness.

Definition hello : FileState := mkFileState "Hello, World!" 1704110400000 13.
Definition universe : FileState :=
  mkFileState "Hello, Universe!" 1704112200000 16.

(** [contains needle hay]: [needle] occurs in [hay]. *)
Definition contains (needle hay : string) : Prop :=
  exists pre post, hay = (pre ++ needle ++ post)%string.

(** The status and the message [updateFileState] derives from what
    [checkFreshness] did. *)
Definition verdictEntry (newState : FileState) (t : Z)
                        (r : Outcome FileFreshnessResult) (e : FileEntry)
  : FileEntry :=
  match r with
  | Returned f =>
      mkEntry (path e) newState
              (if isFresh f then READ_CURRENT else READ_STALE)
              (firstReadAt e) t None
  | Thrown v =>
      mkEntry (path e) newState READ_ERROR (firstReadAt e) t
              (Some (errorText v))
  end.

(** A path is absent when the service is new, after it was removed,
    cleared away or evicted, and for as long as no call registers it. *)
Definition registers (p : string) (c : Call) : bool :=
  match c with
  | RegisterFile q _ => String.eqb p q
  | AutoTrackFile q _ => String.eqb p q
  | _ => false
  end.

Inductive Absent {W : Type} (host : Host W) (p : string) : State W -> Prop :=
| absent_new (o : FileTrackerServiceOptions) (w : W) :
    Absent host p (constructor o w)
| absent_removed (s : State W) :
    Absent host p (snd (removeFile p s))
| absent_cleared (s : State W) :
    Absent host p (snd (clear s))
| absent_evicted (s : State W) :
    fst (scanOldest (trackedFiles s) (fst (now host (world s)))) = Some p ->
    p <> "" ->
    Absent host p (snd (evictOldestEntry host s))
| absent_step (s : State W) (c : Call) :
    Absent host p s ->
    registers p c = false ->
    Absent host p (exec host c s).

(** No entry carries [not_read]. *)
Definition everRead (m : JsMap.t) : Prop :=
  Forall (fun kv => status (snd kv) <> NOT_READ) m.

(** How many entries carry status [k]. *)
Definition countStatus (k : FileStatus) (entries : list FileEntry) : Z :=
  Z.of_nat (List.length
              (filter (fun e => FileStatus_eqb (status e) k) entries)).

(** What the specification says of [refreshFileState]: an untracked path
    gives [false] and changes nothing; a successful capture installs the
    new snapshot and leaves the entry current; and the boolean returned
    tells whether the entry ended current. *)
Definition refreshReturnsWhetherCurrent {W : Type} (host : Host W)
           (s : State W) (filePath : string) : Prop :=
  (getFileStatus filePath s = None ->
   refreshFileState host filePath s = (Returned false, s)) /\
  (forall newState w1,
      getFileStatus filePath s <> None ->
      getFileState host filePath (world s) = (Returned newState, w1) ->
      exists e',
        getFileStatus filePath (snd (refreshFileState host filePath s))
          = Some e' /\
        state e' = newState /\ status e' = READ_CURRENT) /\
  (forall b s' e',
      refreshFileState host filePath s = (Returned b, s') ->
      getFileStatus filePath s' = Some e' ->
      b = FileStatus_eqb (status e') READ_CURRENT).

Definition galaxy : FileState :=
  mkFileState "Hello, Galaxy!" 1704114000000 14.

(** A service tracking "a", whose file an outside writer rewrites between
    the capture and the comparison of the next refresh. *)
Definition rewrittenMeanwhile : State Script :=
  mkState [("a", mkEntry "a" hello READ_CURRENT 100 100 None)]
          (mkRequired false true 1000 false)
          (mkScript [200] [[("a", universe)]; [("a", galaxy)]]).

(** A service tracking "a" while the live file has become [universe]. *)
Definition entryA : FileEntry := mkEntry "a" hello READ_CURRENT 100 100 None.

Definition trackingA : State Script :=
  mkState [("a", entryA)] (mkRequired false true 1000 false)
          (mkScript [200] [[("a", universe)]]).

(** The same, the file being gone from the disk. *)
Definition vanishedA : State Script :=
  mkState [("a", entryA)] (mkRequired false true 1000 false)
          (mkScript [200] [[]]).

(** The files of the test 'should enforce maximum tracked files limit'. *)
Definition one : FileState := mkFileState "1" 1704110400000 1.
Definition two : FileState := mkFileState "2" 1704110400000 1.
Definition three : FileState := mkFileState "3" 1704110400000 1.

(** A service with room for [n] files whose clock gives [ts]. *)
Definition smallService (n : Z) (ts : list Z) (ds : list Disk)
  : State Script :=
  constructor (mkOptions None None (Some n) None) (mkScript ts ds).

(** Three registrations within one millisecond of the clock. *)
Definition withinOneMillisecond : State Script :=
  run scriptedHost
      [RegisterFile "file1.txt" one; RegisterFile "file2.txt" two;
       RegisterFile "file3.txt" three]
      (smallService 2 [7; 7; 7; 7; 7; 7; 7; 7] []).

(** Room for one file; "a" and "b" are registered within one millisecond
    and the clock ticks while "a" is being registered again. *)
Definition twiceInOneMillisecond : State Script :=
  run scriptedHost
      [RegisterFile "a" hello; RegisterFile "b" hello]
      (smallService 1 [5; 5; 5; 5; 5; 5; 5; 6] []).

(** Room for two files; three are registered within one millisecond, the
    refresh of "a" fails because the file is gone, and the clock ticks
    while "a" is being registered again. *)
Definition failedThenRegistered : State Script :=
  run scriptedHost
      [RegisterFile "a" hello; RegisterFile "b" hello;
       RegisterFile "c" hello; RefreshFileState "a"]
      (smallService 2 [5; 5; 5; 5; 5; 5; 5; 5; 5; 5; 6] [[]]).

(** ** FileStatusAPI (fileStatusAPI.ts) *)

(** [sum + count] on the numbers of the counters. *)
Definition jsAdd (a b : JsNumber) : JsNumber :=
  match a, b with
  | Num x, Num y => Num (x + y)
  | _, _ => NaN
  end.

(** What [getSummary] returns; a counter read with [stats[k]] is
    undefined ([None]) when the key is missing. *)
Record Summary : Type := mkSummary {
  totalTracked : JsNumber;
  currentFiles : option JsNumber;
  staleFiles : option JsNumber;
  errorFiles : option JsNumber
}.

(** The class keeps one private service, [new FileTrackerService()], made
    by its private constructor; [getInstance] hands out the one instance,
    so the state of that service is threaded through the calls. *)
Module FileStatusAPI.

Section API.

Context {W : Type}.
Variable host : Host W.

Definition newInstance (w : W) : State W :=
  constructor (mkOptions None None None None) w.

Definition getStaleFiles (s : State W) : list FileEntry :=
  getFilesByStatus READ_STALE s.

Definition getCurrentFiles (s : State W) : list FileEntry :=
  getFilesByStatus READ_CURRENT s.

Definition getAllReadFiles (s : State W) : list FileEntry :=
  (getCurrentFiles s ++ getStaleFiles s)%list.

Definition getSummary (s : State W) : Summary :=
  let stats := getStats s in
  mkSummary
    (fold_left (fun sum count => jsAdd sum count) (map snd stats) (Num 0))
    (Stats.get READ_CURRENT stats)
    (Stats.get READ_STALE stats)
    (Stats.get READ_ERROR stats).

Definition getFilesNeedingAttention (s : State W) : list FileEntry :=
  (getFilesByStatus READ_STALE s ++ getFilesByStatus READ_ERROR s)%list.

(** The methods of the class.  [getFileStatus], [isFileStale] and
    [getStats] pass the call on to the service. *)
Inductive Method : Type :=
| GetFileStatus (filePath : string)
| IsFileStaleOf (filePath : string)
| GetStaleFiles
| GetCurrentFiles
| GetAllReadFiles
| GetStats
| GetSummary
| GetFilesNeedingAttention.

(** The state of the private service after a method; only [isFileStale]
    is more than a read of the registry. *)
Definition call (m : Method) (s : State W) : State W :=
  match m with
  | IsFileStaleOf p => snd (isFileStale host p s)
  | _ => s
  end.

Definition calls (ms : list Method) (s : State W) : State W :=
  fold_left (fun s m => call m s) ms s.

End API.

End FileStatusAPI.

(** ** More notions for the properties *)

(** The ways [updateFileState] and [refreshFileState] change the entry of
    their path: not at all, by a verdict, or by a failed capture. *)
Inductive EntryChange : (FileEntry -> FileEntry) -> Prop :=
| change_none : EntryChange (fun e => e)
| change_verdict (newState : FileState) (t : Z)
                 (r : Outcome FileFreshnessResult) :
    EntryChange (verdictEntry newState t r)
| change_failed (t : Z) (msg : string) :
    EntryChange (fun e => mkEntry (path e) (state e) READ_ERROR
                                  (firstReadAt e) t (Some msg)).

(** Every entry of the registry satisfies [P], told its key. *)
Definition allEntries (P : string -> FileEntry -> Prop) (m : JsMap.t) : Prop :=
  Forall (fun kv => P (fst kv) (snd kv)) m.

(** The registry as the code means it: distinct paths, none of them
    empty, no more than [maxTrackedFiles] of them. *)
Definition withinCapacity {W : Type} (s : State W) : Prop :=
  NoDup (JsMap.keys (trackedFiles s)) /\
  ~ In "" (JsMap.keys (trackedFiles s)) /\
  JsMap.size (trackedFiles s) <= maxTrackedFiles (options s).

(** A host whose clock advances by one millisecond at every reading;
    the evaluator is the scripted one. *)
Definition tickingHost : Host (Z * Script) :=
  mkHost (Z * Script)
    (fun w => (fst w, (fst w + 1, snd w)))
    (fun p w =>
       let (r, d) := scriptedGetFileState p (snd w) in (r, (fst w, d)))
    (fun p st w =>
       let (r, d) := scriptedCheckFreshness p st (snd w) in (r, (fst w, d))).

(** A history on which the properties are tried. *)
Definition sampleHistory : list Call :=
  [RegisterFile "a" hello; RegisterFile "b" hello;
   RefreshFileState "a"; UpdateFileState "b" universe;
   RegisterFile "c" hello; RemoveFile "b"; RegisterFile "a" galaxy].

(** The entry was first read no later than it was last updated, and last
    updated no later than [c]. *)
Definition dated (c : Z) : string -> FileEntry -> Prop :=
  fun _ e => firstReadAt e <= lastUpdatedAt e /\ lastUpdatedAt e <= c.

(** * Properties *)

(** ** The Map *)

Module JsMapFacts.
Import JsMap.

Lemma get_set_same k v m : get k (set k v m) = Some v.
Proof.
  induction m as [|[k' v'] m IH]; simpl.
  - now rewrite String.eqb_refl.
  - destruct (String.eqb k k') eqn:E; simpl; rewrite E; auto.
Qed.

Lemma get_set_other k k' v m : k' <> k -> get k' (set k v m) = get k' m.
Proof.
  intros Hne. induction m as [|[k0 v0] m IH]; simpl.
  - destruct (String.eqb k' k) eqn:E; auto.
    apply String.eqb_eq in E. contradiction.
  - destruct (String.eqb k k0) eqn:E; simpl.
    + apply String.eqb_eq in E. subst k0.
      destruct (String.eqb k' k) eqn:E'; auto.
      apply String.eqb_eq in E'. contradiction.
    + now rewrite IH.
Qed.

Lemma get_update_same k f m e :
  get k m = Some e -> get k (update k f m) = Some (f e).
Proof.
  induction m as [|[k' v'] m IH]; simpl; [discriminate|].
  destruct (String.eqb k k') eqn:E; simpl; rewrite E; auto.
  now intros [= ->].
Qed.

Lemma get_update_other k k' f m :
  k' <> k -> get k' (update k f m) = get k' m.
Proof.
  intros Hne. induction m as [|[k0 v0] m IH]; simpl; auto.
  destruct (String.eqb k k0) eqn:E; simpl.
  - apply String.eqb_eq in E. subst k0.
    destruct (String.eqb k' k) eqn:E'; auto.
    apply String.eqb_eq in E'. contradiction.
  - now rewrite IH.
Qed.

Lemma get_update_none k k' f m :
  get k' m = None -> get k' (update k f m) = None.
Proof.
  induction m as [|[k0 v0] m IH]; simpl; auto.
  destruct (String.eqb k k0) eqn:E; simpl;
    destruct (String.eqb k' k0); auto; discriminate.
Qed.

Lemma update_update k f g m :
  update k f (update k g m) = update k (fun e => f (g e)) m.
Proof.
  induction m as [|[k' v'] m IH]; simpl; auto.
  destruct (String.eqb k k') eqn:E; simpl; rewrite E; auto.
  now rewrite IH.
Qed.

Lemma keys_update k f m : keys (update k f m) = keys m.
Proof.
  unfold keys. induction m as [|[k' v'] m IH]; simpl; auto.
  destruct (String.eqb k k'); simpl; auto. now rewrite IH.
Qed.

Lemma size_update k f m : size (update k f m) = size m.
Proof.
  unfold size. f_equal.
  induction m as [|[k' v'] m IH]; simpl; auto.
  destruct (String.eqb k k'); simpl; auto.
Qed.

Lemma get_delete_same k m : get k (delete k m) = None.
Proof.
  induction m as [|[k' v'] m IH]; simpl; auto.
  destruct (String.eqb k k') eqn:E; simpl; auto. now rewrite E.
Qed.

Lemma get_delete_other k k' m : k' <> k -> get k' (delete k m) = get k' m.
Proof.
  intros Hne. induction m as [|[k0 v0] m IH]; simpl; auto.
  destruct (String.eqb k k0) eqn:E; simpl.
  - apply String.eqb_eq in E. subst k0.
    destruct (String.eqb k' k) eqn:E'; auto.
    apply String.eqb_eq in E'. contradiction.
  - now rewrite IH.
Qed.

Lemma get_delete_none k k' m : get k' m = None -> get k' (delete k m) = None.
Proof.
  induction m as [|[k0 v0] m IH]; simpl; auto.
  destruct (String.eqb k' k0) eqn:E; [discriminate|].
  intros H. destruct (String.eqb k k0); simpl; auto. rewrite E. auto.
Qed.

(** A key that is present keeps its place, so the size stays. *)
Lemma size_set_present k v m e : get k m = Some e -> size (set k v m) = size m.
Proof.
  unfold size. intros H. f_equal. revert H.
  induction m as [|[k' v'] m IH]; simpl; [discriminate|].
  destruct (String.eqb k k'); simpl; auto.
Qed.

Lemma size_set_absent k v m : get k m = None -> size (set k v m) = size m + 1.
Proof.
  unfold size. intros H.
  assert (List.length (set k v m) = S (List.length m)) as ->; [|lia].
  revert H. induction m as [|[k' v'] m IH]; simpl; auto.
  destruct (String.eqb k k'); simpl; [discriminate|auto].
Qed.

End JsMapFacts.

Lemma append_nil_r (a : string) : (a ++ "")%string = a.
Proof. induction a as [|c a IH]; simpl; [reflexivity|now rewrite IH]. Qed.

(** ** What one call does *)

Ltac unfold_js :=
  unfold bind, ret, throw, try_catch, assign, modifyTracked, getTracked,
    getOptions, newDate, liftHost; simpl.

Section ServiceFacts.

Context {W : Type}.
Variable host : Host W.
Import JsMap JsMapFacts.

Lemma updateFileState_tracked_eq (s : State W) filePath newState e t w1 r w2 :
  getFileStatus filePath s = Some e ->
  now host (world s) = (t, w1) ->
  checkFreshness host filePath newState w1 = (r, w2) ->
  updateFileState host filePath newState s =
    (Returned tt,
     mkState (update filePath (verdictEntry newState t r) (trackedFiles s))
             (options s) w2).
Proof.
  unfold getFileStatus, updateFileState. intros Hget Hnow Hchk.
  unfold_js. rewrite Hget. unfold_js. rewrite Hnow. simpl.
  rewrite Hchk. destruct r as [f|v]; simpl;
    rewrite !update_update; reflexivity.
Qed.

Lemma updateFileState_untracked_eq (s : State W) filePath newState :
  getFileStatus filePath s = None ->
  updateFileState host filePath newState s =
    (Thrown (JsError ("File not tracked: " ++ filePath)%string), s).
Proof.
  unfold getFileStatus, updateFileState. intros Hget.
  unfold_js. now rewrite Hget.
Qed.

Lemma refreshFileState_untracked_eq (s : State W) filePath :
  getFileStatus filePath s = None ->
  refreshFileState host filePath s = (Returned false, s).
Proof.
  unfold getFileStatus, refreshFileState. intros Hget.
  unfold_js. now rewrite Hget.
Qed.

Lemma refreshFileState_captured_eq
      (s : State W) filePath e newState w1 t w2 r w3 :
  getFileStatus filePath s = Some e ->
  getFileState host filePath (world s) = (Returned newState, w1) ->
  now host w1 = (t, w2) ->
  checkFreshness host filePath newState w2 = (r, w3) ->
  refreshFileState host filePath s =
    (Returned true,
     mkState (update filePath (verdictEntry newState t r) (trackedFiles s))
             (options s) w3).
Proof.
  intros Hget Hcap Hnow Hchk.
  unfold refreshFileState, bind at 1, getTracked, try_catch.
  unfold getFileStatus in Hget. rewrite Hget.
  unfold bind at 1, liftHost at 1. rewrite Hcap.
  unfold bind at 1.
  rewrite (updateFileState_tracked_eq
             (mkState (trackedFiles s) (options s) w1)
             filePath newState e t w2 r w3 Hget Hnow Hchk).
  reflexivity.
Qed.

Lemma refreshFileState_failed_eq (s : State W) filePath e v w1 t w2 :
  getFileStatus filePath s = Some e ->
  getFileState host filePath (world s) = (Thrown v, w1) ->
  now host w1 = (t, w2) ->
  refreshFileState host filePath s =
    (Returned false,
     mkState (update filePath
                (fun e => mkEntry (path e) (state e) READ_ERROR
                                  (firstReadAt e) t (Some (errorText v)))
                (trackedFiles s))
             (options s) w2).
Proof.
  intros Hget Hcap Hnow.
  unfold refreshFileState, bind at 1, getTracked, try_catch.
  unfold getFileStatus in Hget. rewrite Hget.
  unfold bind at 1, liftHost at 1. rewrite Hcap.
  unfold_js. rewrite Hnow. simpl. rewrite !update_update. reflexivity.
Qed.

Lemma isFileStale_tracked_eq (s : State W) filePath e r w1 :
  getFileStatus filePath s = Some e ->
  checkFreshness host filePath (state e) (world s) = (r, w1) ->
  isFileStale host filePath s =
    (Returned (match r with
               | Returned f => negb (isFresh f)
               | Thrown _ => true
               end),
     mkState (trackedFiles s) (options s) w1).
Proof.
  unfold getFileStatus, isFileStale. intros Hget Hchk.
  unfold_js. rewrite Hget. unfold_js. rewrite Hchk.
  destruct r; reflexivity.
Qed.

Lemma isFileStale_untracked_eq (s : State W) filePath :
  getFileStatus filePath s = None ->
  isFileStale host filePath s = (Returned false, s).
Proof.
  unfold getFileStatus, isFileStale. intros Hget.
  unfold_js. now rewrite Hget.
Qed.

End ServiceFacts.

Section Transitions.

Context {W : Type}.
Variable host : Host W.
Import JsMap JsMapFacts.

(** C3: on a tracked path [updateFileState] returns normally, stores the
    new snapshot and a fresh [lastUpdatedAt] whatever the comparison
    does, and sets the status by the verdict: fresh gives current, not
    fresh gives stale, a throw gives error with the thrown message kept
    in the entry: the [message] of a thrown [Error], the string of any
    other thrown value.  Nothing else in the registry changes. *)
Theorem updateFileState_sets_status_by_verdict :
  forall (s : State W) filePath newState e t w1 r w2,
    getFileStatus filePath s = Some e ->
    now host (world s) = (t, w1) ->
    checkFreshness host filePath newState w1 = (r, w2) ->
    exists s' e',
      updateFileState host filePath newState s = (Returned tt, s') /\
      getFileStatus filePath s' = Some e' /\
      state e' = newState /\
      lastUpdatedAt e' = t /\
      path e' = path e /\
      firstReadAt e' = firstReadAt e /\
      match r with
      | Returned f =>
          status e' = (if isFresh f then READ_CURRENT else READ_STALE) /\
          error e' = None
      | Thrown (JsError message) =>
          status e' = READ_ERROR /\ error e' = Some message
      | Thrown (JsOther asString) =>
          status e' = READ_ERROR /\ error e' = Some asString
      end /\
      (forall q, q <> filePath -> getFileStatus q s' = getFileStatus q s) /\
      keys (trackedFiles s') = keys (trackedFiles s).
Proof.
  intros s filePath newState e t w1 r w2 Hget Hnow Hchk.
  eexists. exists (verdictEntry newState t r e).
  split; [eapply updateFileState_tracked_eq; eassumption|].
  unfold getFileStatus in *; simpl.
  split; [now apply get_update_same|].
  destruct r as [f|[message|asString]]; simpl;
    (repeat split; auto;
     [intros q Hq; now apply get_update_other | apply keys_update]).
Qed.

(** C4: on a path that is not tracked [updateFileState] throws an
    [Error] whose message is "File not tracked: " followed by the path,
    and leaves the registry (and the world) as they were: no entry is
    created. *)
Theorem updateFileState_untracked_throws :
  forall (s : State W) filePath newState,
    getFileStatus filePath s = None ->
    updateFileState host filePath newState s =
      (Thrown (JsError ("File not tracked: " ++ filePath)%string), s) /\
    contains filePath ("File not tracked: " ++ filePath)%string /\
    getFileStatus filePath
      (snd (updateFileState host filePath newState s)) = None.
Proof.
  intros s filePath newState Hget.
  rewrite (updateFileState_untracked_eq host s filePath newState Hget).
  repeat split; auto.
  exists "File not tracked: ", "". now rewrite append_nil_r.
Qed.


(** C6: when the comparison throws on a tracked path, [isFileStale]
    returns true and the registry is the very same afterwards: no field
    of any entry changes. *)
Theorem isFileStale_failure_is_stale :
  forall (s : State W) filePath e v w1,
    getFileStatus filePath s = Some e ->
    checkFreshness host filePath (state e) (world s) = (Thrown v, w1) ->
    exists s',
      isFileStale host filePath s = (Returned true, s') /\
      trackedFiles s' = trackedFiles s /\
      getFileStatus filePath s' = Some e.
Proof.
  intros s filePath e v w1 Hget Hchk.
  eexists. split.
  - rewrite (isFileStale_tracked_eq host s filePath e _ _ Hget Hchk).
    reflexivity.
  - simpl. split; auto.
Qed.

(** C2, as the code has it: an untracked path gives false and changes
    nothing; when the capture succeeds the new snapshot is installed and
    the call returns true, the status being what the comparison of the
    new snapshot gives (current, stale, or error when it throws); when
    the capture fails the call returns false and the entry ends in
    error.  The boolean tells whether the capture succeeded. *)
Theorem refreshFileState_returns_whether_captured :
  forall (s : State W) filePath,
    (getFileStatus filePath s = None ->
     refreshFileState host filePath s = (Returned false, s)) /\
    (forall e newState w1 t w2 r w3,
        getFileStatus filePath s = Some e ->
        getFileState host filePath (world s) = (Returned newState, w1) ->
        now host w1 = (t, w2) ->
        checkFreshness host filePath newState w2 = (r, w3) ->
        exists s' e',
          refreshFileState host filePath s = (Returned true, s') /\
          getFileStatus filePath s' = Some e' /\
          state e' = newState /\
          lastUpdatedAt e' = t /\
          status e' = match r with
                      | Returned f =>
                          if isFresh f then READ_CURRENT else READ_STALE
                      | Thrown _ => READ_ERROR
                      end) /\
    (forall e v w1 t w2,
        getFileStatus filePath s = Some e ->
        getFileState host filePath (world s) = (Thrown v, w1) ->
        now host w1 = (t, w2) ->
        exists s' e',
          refreshFileState host filePath s = (Returned false, s') /\
          getFileStatus filePath s' = Some e' /\
          state e' = state e /\
          status e' = READ_ERROR).
Proof.
  intros s filePath. split; [|split].
  - apply refreshFileState_untracked_eq.
  - intros e newState w1 t w2 r w3 Hget Hcap Hnow Hchk.
    eexists. exists (verdictEntry newState t r e).
    split; [eapply refreshFileState_captured_eq; eassumption|].
    unfold getFileStatus in *; simpl.
    split; [now apply get_update_same|].
    destruct r; simpl; auto.
  - intros e v w1 t w2 Hget Hcap Hnow.
    eexists. eexists.
    split; [eapply refreshFileState_failed_eq; eassumption|].
    unfold getFileStatus in *; simpl.
    split; [apply get_update_same; eassumption|]. simpl. auto.
Qed.

End Transitions.

(** ** Registration and eviction *)

Section Registration.

Context {W : Type}.
Variable host : Host W.
Import JsMap JsMapFacts.

Lemma evictOldestEntry_eq (s : State W) t w1 :
  now host (world s) = (t, w1) ->
  evictOldestEntry host s =
    (Returned tt,
     mkState (match fst (scanOldest (trackedFiles s) t) with
              | Some p => if negb (String.eqb p "")
                          then delete p (trackedFiles s)
                          else trackedFiles s
              | None => trackedFiles s
              end)
             (options s) w1).
Proof.
  intros Hnow. unfold evictOldestEntry. unfold_js. rewrite Hnow. simpl.
  destruct (fst (scanOldest (trackedFiles s) t)) as [p|]; simpl; auto.
  destruct (String.eqb p ""); reflexivity.
Qed.

Lemma registerFile_eq (s : State W) filePath st t1 w1 t2 w2 :
  now host (world s) = (t1, w1) ->
  now host w1 = (t2, w2) ->
  registerFile host filePath st s =
    let m := set filePath (mkEntry filePath st READ_CURRENT t1 t2 None)
                 (trackedFiles s) in
    if size m >? maxTrackedFiles (options s)
    then evictOldestEntry host (mkState m (options s) w2)
    else (Returned tt, mkState m (options s) w2).
Proof.
  intros H1 H2. unfold registerFile. unfold_js. rewrite H1. simpl.
  rewrite H2. simpl.
  destruct (size _ >? _); reflexivity.
Qed.

(** Within capacity nothing is evicted: the registry is the old one
    with the new entry set. *)
Lemma registerFile_within_capacity (s : State W) filePath st t1 w1 t2 w2 :
  now host (world s) = (t1, w1) ->
  now host w1 = (t2, w2) ->
  size (set filePath (mkEntry filePath st READ_CURRENT t1 t2 None)
            (trackedFiles s)) <= maxTrackedFiles (options s) ->
  registerFile host filePath st s =
    (Returned tt,
     mkState (set filePath (mkEntry filePath st READ_CURRENT t1 t2 None)
                  (trackedFiles s))
             (options s) w2).
Proof.
  intros H1 H2 Hsz. rewrite (registerFile_eq s filePath st _ _ _ _ H1 H2).
  cbv zeta. destruct (Z.gtb_spec
    (size (set filePath (mkEntry filePath st READ_CURRENT t1 t2 None)
               (trackedFiles s))) (maxTrackedFiles (options s))); [lia|].
  reflexivity.
Qed.

(** Whatever happens, the registry after [registerFile] is the old one
    with the new entry set, less at most one key. *)
Lemma registerFile_frame (s : State W) filePath st :
  exists t1 t2,
    options (snd (registerFile host filePath st s)) = options s /\
    let m := set filePath (mkEntry filePath st READ_CURRENT t1 t2 None)
                 (trackedFiles s) in
    (trackedFiles (snd (registerFile host filePath st s)) = m \/
     exists k, trackedFiles (snd (registerFile host filePath st s))
               = delete k m).
Proof.
  destruct (now host (world s)) as [t1 w1] eqn:H1.
  destruct (now host w1) as [t2 w2] eqn:H2.
  exists t1, t2.
  rewrite (registerFile_eq s filePath st _ _ _ _ H1 H2). cbv zeta.
  destruct (size _ >? _); simpl; auto.
  destruct (now host w2) as [t3 w3] eqn:H3.
  rewrite (evictOldestEntry_eq
             (mkState (set filePath
                           (mkEntry filePath st READ_CURRENT t1 t2 None)
                           (trackedFiles s)) (options s) w2) t3 w3 H3).
  simpl. split; auto.
  destruct (fst (scanOldest _ t3)) as [p|]; auto.
  destruct (negb (String.eqb p "")); eauto.
Qed.

Lemma update_absent k f m : get k m = None -> update k f m = m.
Proof.
  induction m as [|[k' v'] m IH]; simpl; auto.
  destruct (String.eqb k k'); [discriminate|].
  intros H. now rewrite IH.
Qed.

(** [updateFileState] and [refreshFileState] only touch the entry of
    their path, and never give it the status [not_read]. *)
Lemma updateFileState_frame (s : State W) filePath st :
  exists f,
    options (snd (updateFileState host filePath st s)) = options s /\
    trackedFiles (snd (updateFileState host filePath st s))
      = update filePath f (trackedFiles s) /\
    (forall e, status e <> NOT_READ -> status (f e) <> NOT_READ).
Proof.
  destruct (getFileStatus filePath s) as [e|] eqn:Hget.
  - destruct (now host (world s)) as [t w1] eqn:Hnow.
    destruct (checkFreshness host filePath st w1) as [r w2] eqn:Hchk.
    exists (verdictEntry st t r).
    rewrite (updateFileState_tracked_eq host s filePath st e t w1 r w2);
      auto. simpl. repeat split; auto.
    intros e0 _. destruct r as [[[]]|]; simpl; discriminate.
  - exists (fun e => e).
    rewrite updateFileState_untracked_eq; auto. simpl.
    repeat split; auto. symmetry. now apply update_absent.
Qed.

Lemma refreshFileState_frame (s : State W) filePath :
  exists f,
    options (snd (refreshFileState host filePath s)) = options s /\
    trackedFiles (snd (refreshFileState host filePath s))
      = update filePath f (trackedFiles s) /\
    (forall e, status e <> NOT_READ -> status (f e) <> NOT_READ).
Proof.
  destruct (getFileStatus filePath s) as [e|] eqn:Hget.
  - destruct (getFileState host filePath (world s)) as [[st|v] w1] eqn:Hcap;
      destruct (now host w1) as [t w2] eqn:Hnow.
    + destruct (checkFreshness host filePath st w2) as [r w3] eqn:Hchk.
      exists (verdictEntry st t r).
      rewrite (refreshFileState_captured_eq host s filePath e st w1 t w2 r w3);
        auto. simpl. repeat split; auto.
      intros e0 _. destruct r as [[[]]|]; simpl; discriminate.
    + eexists.
      rewrite (refreshFileState_failed_eq host s filePath e v w1 t w2); auto.
      simpl. repeat split; auto. simpl. discriminate.
  - exists (fun e => e).
    rewrite refreshFileState_untracked_eq; auto.
    repeat split; auto. symmetry. now apply update_absent.
Qed.

Lemma isFileStale_frame (s : State W) filePath :
  options (snd (isFileStale host filePath s)) = options s /\
  trackedFiles (snd (isFileStale host filePath s)) = trackedFiles s.
Proof.
  destruct (getFileStatus filePath s) as [e|] eqn:Hget.
  - destruct (checkFreshness host filePath (state e) (world s))
      as [r w1] eqn:Hchk.
    rewrite (isFileStale_tracked_eq host s filePath e r w1); auto.
  - rewrite isFileStale_untracked_eq; auto.
Qed.

End Registration.

(** ** Histories: what every call preserves *)

Section Invariants.

Context {W : Type}.
Variable host : Host W.
Import JsMap JsMapFacts.

Lemma autoTrackFile_cases (s : State W) filePath st :
  autoTrackFile host filePath st s =
    if trackAllFiles (options s)
    then registerFile host filePath st s
    else (Returned tt, s).
Proof.
  unfold autoTrackFile. unfold_js.
  destruct (trackAllFiles (options s)); reflexivity.
Qed.

Lemma exec_options (c : Call) (s : State W) :
  options (exec host c s) = options s.
Proof.
  destruct c as [p st|p st|p|p|p| |p st]; simpl; auto.
  - destruct (registerFile_frame host s p st) as (t1 & t2 & Ho & _); auto.
  - destruct (updateFileState_frame host s p st) as (f & Ho & _); auto.
  - apply isFileStale_frame.
  - destruct (refreshFileState_frame host s p) as (f & Ho & _); auto.
  - rewrite autoTrackFile_cases.
    destruct (trackAllFiles (options s)); auto.
    destruct (registerFile_frame host s p st) as (t1 & t2 & Ho & _); auto.
Qed.

(** A call that does not register [p] leaves [p] untracked. *)
Lemma exec_untracked (c : Call) (s : State W) p :
  getFileStatus p s = None ->
  registers p c = false ->
  getFileStatus p (exec host c s) = None.
Proof.
  unfold getFileStatus. intros Hget Hreg.
  assert (Hregister : forall q st, String.eqb p q = false ->
            get p (trackedFiles (snd (registerFile host q st s))) = None).
  { intros q st Hq. apply String.eqb_neq in Hq.
    destruct (registerFile_frame host s q st)
      as (t1 & t2 & _ & [Hm | [k Hm]]); rewrite Hm.
    - now rewrite get_set_other.
    - apply get_delete_none. now rewrite get_set_other. }
  destruct c as [q st|q st|q|q|q| |q st]; simpl in *; auto.
  - destruct (updateFileState_frame host s q st) as (f & _ & Hm & _).
    rewrite Hm. now apply get_update_none.
  - destruct (isFileStale_frame host s q) as [_ Hm]. now rewrite Hm.
  - destruct (refreshFileState_frame host s q) as (f & _ & Hm & _).
    rewrite Hm. now apply get_update_none.
  - now apply get_delete_none.
  - rewrite autoTrackFile_cases.
    destruct (trackAllFiles (options s)); auto.
Qed.

Lemma absent_untracked (s : State W) p :
  Absent host p s -> getFileStatus p s = None.
Proof.
  induction 1 as [o w|s|s|s Hscan Hne|s c Habs IH Hreg].
  - reflexivity.
  - unfold getFileStatus. simpl. apply get_delete_same.
  - reflexivity.
  - destruct (now host (world s)) as [t w1] eqn:Hnow.
    rewrite (evictOldestEntry_eq host s t w1 Hnow).
    unfold getFileStatus. simpl in *. rewrite Hscan.
    apply String.eqb_neq in Hne. rewrite Hne. simpl.
    apply get_delete_same.
  - now apply exec_untracked.
Qed.

(** C7: a path that was never registered, or was removed, cleared away
    or evicted and not registered since, is reported not stale, and
    [getFileStatus] gives undefined for it. *)
Theorem absent_path_is_not_stale :
  forall (s : State W) p,
    Absent host p s ->
    isFileStale host p s = (Returned false, s) /\
    getFileStatus p s = None.
Proof.
  intros s p Habs. pose proof (absent_untracked s p Habs) as Hget.
  split; auto. now apply isFileStale_untracked_eq.
Qed.

Lemma everRead_set k v m :
  everRead m -> status v <> NOT_READ -> everRead (set k v m).
Proof.
  unfold everRead. intros Hm Hv.
  induction m as [|[k' v'] m IH]; simpl.
  - constructor; auto.
  - inversion Hm; subst. destruct (String.eqb k k'); constructor; auto.
Qed.

Lemma everRead_update k f m :
  everRead m ->
  (forall e, status e <> NOT_READ -> status (f e) <> NOT_READ) ->
  everRead (update k f m).
Proof.
  unfold everRead. intros Hm Hf.
  induction m as [|[k' v'] m IH]; simpl; auto.
  inversion Hm; subst.
  destruct (String.eqb k k'); constructor; simpl in *; auto.
Qed.

Lemma everRead_delete k m : everRead m -> everRead (delete k m).
Proof.
  unfold everRead, delete. intros Hm. apply Forall_forall.
  intros kv Hin. apply filter_In in Hin.
  rewrite Forall_forall in Hm. apply Hm. tauto.
Qed.

Lemma exec_everRead (c : Call) (s : State W) :
  everRead (trackedFiles s) -> everRead (trackedFiles (exec host c s)).
Proof.
  intros Hm.
  assert (Hregister : forall q st,
            everRead (trackedFiles (snd (registerFile host q st s)))).
  { intros q st.
    destruct (registerFile_frame host s q st)
      as (t1 & t2 & _ & [Hr | [k Hr]]); rewrite Hr.
    - apply everRead_set; auto. simpl. discriminate.
    - apply everRead_delete, everRead_set; auto. simpl. discriminate. }
  destruct c as [q st|q st|q|q|q| |q st]; simpl; auto.
  - destruct (updateFileState_frame host s q st) as (f & _ & Hr & Hf).
    rewrite Hr. now apply everRead_update.
  - destruct (isFileStale_frame host s q) as [_ Hr]. now rewrite Hr.
  - destruct (refreshFileState_frame host s q) as (f & _ & Hr & Hf).
    rewrite Hr. now apply everRead_update.
  - now apply everRead_delete.
  - constructor.
  - rewrite autoTrackFile_cases.
    destruct (trackAllFiles (options s)); auto.
Qed.

Lemma run_everRead (calls : list Call) (s : State W) :
  everRead (trackedFiles s) -> everRead (trackedFiles (run host calls s)).
Proof.
  revert s. induction calls as [|c calls IH]; intros s Hm; simpl; auto.
  apply IH. now apply exec_everRead.
Qed.

End Invariants.

(** ** getStats *)

Module StatsFacts.
Import Stats.

Lemma eqb_eq a b : FileStatus_eqb a b = true <-> a = b.
Proof. destruct a, b; simpl; split; congruence. Qed.

Lemma eqb_refl a : FileStatus_eqb a a = true.
Proof. now destruct a. Qed.

Lemma counter_set_same k v o : get k (set k v o) = Some v.
Proof.
  induction o as [|[k' v'] o IH]; simpl.
  - now rewrite eqb_refl.
  - destruct (FileStatus_eqb k k') eqn:E; simpl; rewrite E; auto.
Qed.

Lemma counter_set_other k k' v o : k' <> k -> get k' (set k v o) = get k' o.
Proof.
  intros Hne. induction o as [|[k0 v0] o IH]; simpl.
  - destruct (FileStatus_eqb k' k) eqn:E; auto.
    apply eqb_eq in E. contradiction.
  - destruct (FileStatus_eqb k k0) eqn:E; simpl.
    + apply eqb_eq in E. subst k0.
      destruct (FileStatus_eqb k' k) eqn:E'; auto.
      apply eqb_eq in E'. contradiction.
    + now rewrite IH.
Qed.

Lemma get_incr_same k n o :
  get k o = Some (Num n) -> get k (incr k o) = Some (Num (n + 1)).
Proof. intros H. unfold incr. rewrite H. apply counter_set_same. Qed.

Lemma get_incr_other k k' o : k' <> k -> get k' (incr k o) = get k' o.
Proof.
  intros Hne. unfold incr.
  destruct (get k o) as [[n|]|]; now apply counter_set_other.
Qed.

Lemma countStatus_cons k e l :
  countStatus k (e :: l)
  = (if FileStatus_eqb (status e) k then 1 else 0) + countStatus k l.
Proof.
  unfold countStatus. simpl.
  destruct (FileStatus_eqb (status e) k); simpl List.length; lia.
Qed.

(** Counting the entries one by one adds to each counter the number of
    entries of its status. *)
Lemma get_fold_incr (entries : list FileEntry) :
  forall (o : t) k n,
    get k o = Some (Num n) ->
    get k (fold_left (fun stats entry => incr (status entry) stats)
                     entries o)
    = Some (Num (n + countStatus k entries)).
Proof.
  induction entries as [|e l IH]; intros o k n Hk; simpl.
  - unfold countStatus. simpl. rewrite Hk. do 2 f_equal. lia.
  - rewrite countStatus_cons.
    destruct (FileStatus_eqb (status e) k) eqn:E.
    + apply eqb_eq in E. subst k.
      rewrite (IH _ (status e) (n + 1)); [do 2 f_equal; lia|].
      now apply get_incr_same.
    + rewrite (IH _ k n); [do 2 f_equal; lia|].
      rewrite get_incr_other; auto.
      intros ->. now rewrite eqb_refl in E.
Qed.

Lemma get_zeroStats k : get k zeroStats = Some (Num 0).
Proof. now destruct k. Qed.

Lemma count_getStats {W : Type} (s : State W) k :
  count k (getStats s) = Some (countStatus k (getAllTrackedFiles s)).
Proof.
  unfold count, getStats, getAllTrackedFiles.
  now rewrite (get_fold_incr _ zeroStats k 0 (get_zeroStats k)).
Qed.

Lemma countStatus_total (l : list FileEntry) :
  countStatus NOT_READ l + countStatus READ_CURRENT l
  + countStatus READ_STALE l + countStatus READ_ERROR l
  = Z.of_nat (List.length l).
Proof.
  induction l as [|e l IH].
  - reflexivity.
  - rewrite !countStatus_cons.
    change (List.length (e :: l)) with (S (List.length l)).
    rewrite Nat2Z.inj_succ.
    destruct (status e); cbn [FileStatus_eqb]; lia.
Qed.

Lemma countStatus_everRead (m : JsMap.t) :
  everRead m -> countStatus NOT_READ (JsMap.values m) = 0.
Proof.
  unfold everRead. induction 1 as [|[k e] m He Hm IH].
  - reflexivity.
  - unfold JsMap.values in *. simpl map. rewrite countStatus_cons, IH.
    simpl in He. destruct (status e); simpl; congruence.
Qed.

End StatsFacts.

Section StatsOfHistories.

Context {W : Type}.
Variable host : Host W.

(** C8: after any history of calls on a new service, [getStats] has a
    count for each of the four statuses, each the number of entries of
    that status; the four add up to the size of the registry and the
    count of [not_read] is zero. *)
Theorem getStats_totals_registry_size :
  forall (o : FileTrackerServiceOptions) (w : W) (calls : list Call),
    let s := run host calls (constructor o w) in
    exists n c l e,
      Stats.count NOT_READ (getStats s) = Some n /\
      Stats.count READ_CURRENT (getStats s) = Some c /\
      Stats.count READ_STALE (getStats s) = Some l /\
      Stats.count READ_ERROR (getStats s) = Some e /\
      c = countStatus READ_CURRENT (getAllTrackedFiles s) /\
      l = countStatus READ_STALE (getAllTrackedFiles s) /\
      e = countStatus READ_ERROR (getAllTrackedFiles s) /\
      n + c + l + e = JsMap.size (trackedFiles s) /\
      n = 0.
Proof.
  intros o w calls s.
  exists (countStatus NOT_READ (getAllTrackedFiles s)),
         (countStatus READ_CURRENT (getAllTrackedFiles s)),
         (countStatus READ_STALE (getAllTrackedFiles s)),
         (countStatus READ_ERROR (getAllTrackedFiles s)).
  rewrite !StatsFacts.count_getStats.
  repeat split.
  - rewrite StatsFacts.countStatus_total.
    unfold getAllTrackedFiles, JsMap.values, JsMap.size.
    now rewrite length_map.
  - apply StatsFacts.countStatus_everRead.
    apply run_everRead. constructor.
Qed.

End StatsOfHistories.

(** ** What the eviction does when it finds an older entry *)

Section Eviction.

Context {W : Type}.
Variable host : Host W.
Import JsMap JsMapFacts.

(** The loop of [evictOldestEntry]: either no entry is strictly older
    than the starting time, or the loop ends on the first entry of the
    smallest [firstReadAt]. *)
Lemma scan_fold (m : JsMap.t) :
  forall op ot,
    (fold_left olderOf m (op, ot) = (op, ot) /\
     Forall (fun kv => ot <= firstReadAt (snd kv)) m) \/
    (exists m1 k e m2,
        m = (m1 ++ (k, e) :: m2)%list /\
        fold_left olderOf m (op, ot) = (Some k, firstReadAt e) /\
        firstReadAt e < ot /\
        Forall (fun kv => firstReadAt e < firstReadAt (snd kv)) m1 /\
        Forall (fun kv => firstReadAt e <= firstReadAt (snd kv)) m2).
Proof.
  induction m as [|[k e] m IH]; intros op ot.
  - left. split; [reflexivity|constructor].
  - simpl fold_left. unfold olderOf at 2. simpl fst; simpl snd.
    destruct (Z.ltb_spec (firstReadAt e) ot) as [Hlt|Hge].
    + right. destruct (IH (Some k) (firstReadAt e))
        as [[Heq Hall] | (m1 & k' & e' & m2 & Hm & Heq & Hlt' & H1 & H2)].
      * exists [], k, e, m. repeat split; auto.
      * exists ((k, e) :: m1), k', e', m2. subst m.
        repeat split; auto; try lia.
    + destruct (IH op ot)
        as [[Heq Hall] | (m1 & k' & e' & m2 & Hm & Heq & Hlt' & H1 & H2)].
      * left. split; auto.
      * right. exists ((k, e) :: m1), k', e', m2. subst m.
        repeat split; auto. constructor; simpl; auto; lia.
Qed.

Lemma scanOldest_oldest (m : JsMap.t) (t : Z) :
  (fst (scanOldest m t) = None /\
   Forall (fun kv => t <= firstReadAt (snd kv)) m) \/
  (exists m1 k e m2,
      m = (m1 ++ (k, e) :: m2)%list /\
      fst (scanOldest m t) = Some k /\
      firstReadAt e < t /\
      Forall (fun kv => firstReadAt e < firstReadAt (snd kv)) m1 /\
      Forall (fun kv => firstReadAt e <= firstReadAt (snd kv)) m2).
Proof.
  unfold scanOldest.
  destruct (scan_fold m None t)
    as [[Heq Hall] | (m1 & k & e & m2 & Hm & Heq & Hlt & H1 & H2)].
  - left. now rewrite Heq.
  - right. exists m1, k, e, m2. rewrite Heq. auto.
Qed.

Lemma get_none_keys k m : get k m = None <-> ~ In k (keys m).
Proof.
  unfold keys. induction m as [|[k' v'] m IH]; simpl.
  - tauto.
  - destruct (String.eqb_spec k k') as [->|Hne].
    + split; [discriminate|]. intros H. exfalso. auto.
    + rewrite IH. split; [intros H [Hk|Hk]; auto | tauto].
Qed.

Lemma set_absent k v m : get k m = None -> set k v m = (m ++ [(k, v)])%list.
Proof.
  induction m as [|[k' v'] m IH]; simpl; auto.
  destruct (String.eqb k k'); [discriminate|].
  intros H. now rewrite IH.
Qed.

Lemma keys_set_present k v m e : get k m = Some e -> keys (set k v m) = keys m.
Proof.
  unfold keys. induction m as [|[k' v'] m IH]; simpl; [discriminate|].
  destruct (String.eqb k k'); simpl; auto.
  intros H. now rewrite IH.
Qed.

Lemma NoDup_keys_set k v m : NoDup (keys m) -> NoDup (keys (set k v m)).
Proof.
  intros Hm. destruct (get k m) as [e|] eqn:Hget.
  - now rewrite (keys_set_present k v m e Hget).
  - rewrite (set_absent k v m Hget). unfold keys. rewrite map_app. simpl.
    apply NoDup_app; auto.
    + repeat constructor. simpl. tauto.
    + intros x Hx [<-|[]]. now apply get_none_keys in Hget.
Qed.

Lemma delete_absent k m : ~ In k (keys m) -> delete k m = m.
Proof.
  unfold keys, delete. induction m as [|[k' v'] m IH]; simpl; auto.
  intros H. destruct (String.eqb_spec k k') as [->|Hne]; simpl.
  - exfalso. auto.
  - rewrite IH; auto.
Qed.

Lemma keys_delete k m : keys (delete k m) = filter (fun q => negb (String.eqb k q)) (keys m).
Proof.
  unfold keys, delete. induction m as [|[k' v'] m IH]; simpl; auto.
  destruct (String.eqb k k'); simpl; now rewrite IH.
Qed.

Lemma NoDup_keys_delete k m : NoDup (keys m) -> NoDup (keys (delete k m)).
Proof. intros H. rewrite keys_delete. now apply NoDup_filter. Qed.

(** Deleting a key that is there takes exactly one entry away. *)
Lemma size_delete_present k m :
  NoDup (keys m) -> In k (keys m) -> size (delete k m) = size m - 1.
Proof.
  unfold size. intros Hnd Hin.
  assert (S (List.length (delete k m)) = List.length m) as <-; [|lia].
  revert Hnd Hin. unfold keys.
  induction m as [|[k' v'] m IH]; simpl; [tauto|].
  intros Hnd Hin. inversion Hnd as [|? ? Hk' Hnd']; subst.
  destruct (String.eqb_spec k k') as [->|Hne]; simpl.
  - fold (delete k' m). now rewrite delete_absent.
  - destruct Hin as [Hk|Hin]; [congruence|]. f_equal. now apply IH.
Qed.

(** When no entry was first read strictly before the time the eviction
    reads, the eviction removes nothing. *)
Lemma evictOldestEntry_nothing_older (s : State W) t w1 :
  now host (world s) = (t, w1) ->
  Forall (fun kv => t <= firstReadAt (snd kv)) (trackedFiles s) ->
  evictOldestEntry host s
  = (Returned tt, mkState (trackedFiles s) (options s) w1).
Proof.
  intros Hnow Hall. rewrite (evictOldestEntry_eq host s t w1 Hnow).
  destruct (scanOldest_oldest (trackedFiles s) t)
    as [[Hnone _] | (m1 & k & e & m2 & Hm & _ & Hlt & _)].
  - now rewrite Hnone.
  - exfalso. rewrite Forall_forall in Hall.
    assert (Hin : In (k, e) (trackedFiles s))
      by (rewrite Hm; apply in_or_app; right; left; reflexivity).
    specialize (Hall _ Hin). simpl in Hall. lia.
Qed.

(** The capacity is kept by a registration whenever the clock read by
    the eviction is strictly later than the first read of some entry and
    no tracked path is the empty string: then exactly the first entry of
    the smallest [firstReadAt] goes. *)
Lemma registerFile_keeps_capacity (s : State W) filePath st t1 w1 t2 w2 t3 w3 :
  now host (world s) = (t1, w1) ->
  now host w1 = (t2, w2) ->
  now host w2 = (t3, w3) ->
  NoDup (keys (trackedFiles s)) ->
  size (trackedFiles s) <= maxTrackedFiles (options s) ->
  t1 < t3 ->
  filePath <> "" ->
  ~ In "" (keys (trackedFiles s)) ->
  let s' := snd (registerFile host filePath st s) in
  size (trackedFiles s') <= maxTrackedFiles (options s') /\
  NoDup (keys (trackedFiles s')) /\
  (size (set filePath (mkEntry filePath st READ_CURRENT t1 t2 None)
             (trackedFiles s)) > maxTrackedFiles (options s) ->
   exists m1 k e m2,
     set filePath (mkEntry filePath st READ_CURRENT t1 t2 None)
         (trackedFiles s) = (m1 ++ (k, e) :: m2)%list /\
     Forall (fun kv => firstReadAt e < firstReadAt (snd kv)) m1 /\
     Forall (fun kv => firstReadAt e <= firstReadAt (snd kv)) m2 /\
     trackedFiles s'
     = delete k (set filePath (mkEntry filePath st READ_CURRENT t1 t2 None)
                     (trackedFiles s)) /\
     size (trackedFiles s')
     = size (set filePath (mkEntry filePath st READ_CURRENT t1 t2 None)
                 (trackedFiles s)) - 1).
Proof.
  intros H1 H2 H3 Hnd Hsize Hlater Hp Hempty s'. subst s'.
  set (entry := mkEntry filePath st READ_CURRENT t1 t2 None).
  rewrite (registerFile_eq host s filePath st _ _ _ _ H1 H2). cbv zeta.
  fold entry.
  assert (Hnd' : NoDup (keys (set filePath entry (trackedFiles s))))
    by now apply NoDup_keys_set.
  assert (Hsz' : size (set filePath entry (trackedFiles s))
                 <= size (trackedFiles s) + 1).
  { destruct (get filePath (trackedFiles s)) as [e|] eqn:Hget.
    - rewrite (size_set_present _ _ _ e Hget). lia.
    - rewrite (size_set_absent _ _ _ Hget). lia. }
  assert (Hkeys : forall k, In k (keys (set filePath entry (trackedFiles s)))
                            -> k <> "").
  { intros k Hin ->. destruct (get filePath (trackedFiles s)) as [e|] eqn:Hget.
    - rewrite (keys_set_present _ _ _ e Hget) in Hin. auto.
    - rewrite (set_absent _ _ _ Hget) in Hin. unfold keys in Hin.
      rewrite map_app in Hin. apply in_app_or in Hin.
      destruct Hin as [Hin|[Hin|[]]]; auto. }
  destruct (Z.gtb_spec (size (set filePath entry (trackedFiles s)))
                       (maxTrackedFiles (options s))) as [Hover|Hfits].
  - rewrite (evictOldestEntry_eq host
               (mkState (set filePath entry (trackedFiles s)) (options s) w2)
               t3 w3 H3). simpl.
    destruct (scanOldest_oldest (set filePath entry (trackedFiles s)) t3)
      as [[Hnone Hall] | (m1 & k & e & m2 & Hm & Hsome & Hlt & Hm1 & Hm2)].
    + exfalso. rewrite Forall_forall in Hall.
      assert (Hin : In (filePath, entry) (set filePath entry (trackedFiles s))).
      { clear. induction (trackedFiles s) as [|[k' v'] m IH]; simpl; auto.
        destruct (String.eqb_spec filePath k') as [->|Hne]; simpl; auto. }
      specialize (Hall _ Hin). simpl in Hall. lia.
    + rewrite Hsome.
      assert (Hink : In k (keys (set filePath entry (trackedFiles s)))).
      { rewrite Hm. unfold keys. rewrite map_app. apply in_or_app.
        right. simpl. auto. }
      pose proof (Hkeys k Hink) as Hk. apply String.eqb_neq in Hk.
      rewrite Hk. simpl.
      pose proof (size_delete_present k _ Hnd' Hink) as Hdel.
      split; [lia|]. split; [now apply NoDup_keys_delete|].
      intros _. exists m1, k, e, m2. repeat split; auto.
  - simpl. split; [lia|]. split; auto. intros Hover. lia.
Qed.

(** X15: with room for at least one file, a registry within capacity and
    a clock that has not run backwards, the entry just registered is
    tracked when [registerFile] returns: it is current, holds the given
    snapshot and no message, and its two dates are the two readings of
    the clock the call made. *)
Lemma registerFile_entry_tracked (s : State W) filePath st t1 w1 t2 w2 :
  now host (world s) = (t1, w1) ->
  now host w1 = (t2, w2) ->
  1 <= maxTrackedFiles (options s) ->
  size (trackedFiles s) <= maxTrackedFiles (options s) ->
  Forall (fun kv => firstReadAt (snd kv) <= t1) (trackedFiles s) ->
  fst (registerFile host filePath st s) = Returned tt /\
  getFileStatus filePath (snd (registerFile host filePath st s))
  = Some (mkEntry filePath st READ_CURRENT t1 t2 None).
Proof.
  intros H1 H2 Hmax Hsize Hclock.
  set (entry := mkEntry filePath st READ_CURRENT t1 t2 None).
  rewrite (registerFile_eq host s filePath st _ _ _ _ H1 H2). cbv zeta.
  fold entry. unfold getFileStatus.
  destruct (Z.gtb_spec (size (set filePath entry (trackedFiles s)))
                       (maxTrackedFiles (options s))) as [Hover|Hfits];
    [|simpl; split; [reflexivity|apply get_set_same]].
  destruct (now host w2) as [t3 w3] eqn:H3.
  rewrite (evictOldestEntry_eq host
             (mkState (set filePath entry (trackedFiles s)) (options s) w2)
             t3 w3 H3). simpl. split; [reflexivity|].
  destruct (get filePath (trackedFiles s)) as [e0|] eqn:Hget.
  { rewrite (size_set_present _ _ _ e0 Hget) in Hover. lia. }
  destruct (scanOldest_oldest (set filePath entry (trackedFiles s)) t3)
    as [[Hnone Hall] | (m1 & k & e & m2 & Hm & Hsome & Hlt & Hm1 & Hm2)].
  - rewrite Hnone. apply get_set_same.
  - rewrite Hsome. destruct (negb (String.eqb k "")); [|apply get_set_same].
    assert (Hk : k <> filePath).
    { intros ->. rewrite (set_absent _ _ _ Hget) in Hm.
      destruct m2 as [|kv m2 _] using rev_ind.
      - apply app_inj_tail in Hm. destruct Hm as [<- Hkv].
        injection Hkv as <-.
        rewrite (size_set_absent _ _ _ Hget) in Hover.
        destruct (trackedFiles s) as [|[k0 e0] m0].
        + unfold size in Hover. simpl in Hover. lia.
        + inversion Hm1; inversion Hclock; subst. simpl in *. lia.
      - rewrite app_comm_cons, app_assoc in Hm.
        apply app_inj_tail in Hm. destruct Hm as [Hm _].
        apply get_none_keys in Hget. apply Hget. rewrite Hm.
        unfold keys. rewrite map_app. apply in_or_app. right. simpl. auto. }
    rewrite get_delete_other; auto. apply get_set_same.
Qed.

End Eviction.

(** ** The service on concrete inputs *)

(** C1: with room for two files, three files registered within one
    millisecond are all still tracked when the third call has returned:
    the scan of [evictOldestEntry] starts from the present time and finds
    no entry strictly older, so nothing is evicted and the size, three,
    exceeds [maxTrackedFiles]. *)
Theorem capacity_exceeded_within_one_millisecond :
  maxTrackedFiles (options withinOneMillisecond) = 2 /\
  JsMap.size (trackedFiles withinOneMillisecond) = 3 /\
  JsMap.keys (trackedFiles withinOneMillisecond)
  = ["file1.txt"; "file2.txt"; "file3.txt"] /\
  getFileStatus "file1.txt" withinOneMillisecond
  = Some (mkEntry "file1.txt" one READ_CURRENT 7 7 None).
Proof. repeat split. Qed.

(** The other way the eviction misses: the oldest path is the empty
    string, which [if (oldestPath)] takes for no path at all. *)
Lemma empty_path_is_not_evicted :
  JsMap.keys
    (trackedFiles
       (run scriptedHost [RegisterFile "" hello; RegisterFile "b" hello]
            (smallService 1 [0; 0; 5; 5; 6] [])))
  = [""; "b"].
Proof. reflexivity. Qed.

(** C9: [registerFile] returns normally and yet there is no entry for the
    path it registered: the registry was over capacity already, the entry
    kept the first place of its key, and the eviction of the same call
    took it as the oldest. *)
Theorem registered_entry_evicted_by_its_own_call :
  JsMap.keys (trackedFiles twiceInOneMillisecond) = ["a"; "b"] /\
  fst (registerFile scriptedHost "a" universe twiceInOneMillisecond)
  = Returned tt /\
  getFileStatus "a"
    (snd (registerFile scriptedHost "a" universe twiceInOneMillisecond))
  = None /\
  JsMap.keys
    (trackedFiles
       (snd (registerFile scriptedHost "a" universe twiceInOneMillisecond)))
  = ["b"].
Proof. repeat split. Qed.

(** C10: "a" is tracked with status error and a message; registering it
    again does not leave a current entry with the new snapshot: the call
    evicts the entry it has just put in place of the old one. *)
Theorem reregistered_entry_evicted_by_its_own_call :
  getFileStatus "a" failedThenRegistered
  = Some (mkEntry "a" hello READ_ERROR 5 5
                  (Some "ENOENT: no such file or directory")) /\
  fst (registerFile scriptedHost "a" universe failedThenRegistered)
  = Returned tt /\
  getFileStatus "a"
    (snd (registerFile scriptedHost "a" universe failedThenRegistered))
  = None.
Proof. repeat split. Qed.

(** C2, as stated, fails: the file is rewritten between the capture and
    the comparison, the entry ends stale, and [refreshFileState] returns
    true. *)
Lemma refresh_true_though_stale :
  ~ refreshReturnsWhetherCurrent scriptedHost rewrittenMeanwhile "a".
Proof.
  intros (_ & _ & H).
  specialize (H true
                (snd (refreshFileState scriptedHost "a" rewrittenMeanwhile))
                (mkEntry "a" universe READ_STALE 100 200 None)
                eq_refl eq_refl).
  discriminate H.
Qed.

(** ** Witnesses *)

Lemma updateFileState_sets_status_by_verdict_witness :
  getFileStatus "a" trackingA = Some entryA /\
  (exists s' e',
      updateFileState scriptedHost "a" universe trackingA
      = (Returned tt, s') /\
      getFileStatus "a" s' = Some e' /\
      state e' = universe /\
      lastUpdatedAt e' = 200 /\
      status e' = READ_CURRENT /\
      error e' = None) /\
  getFileStatus "a" vanishedA = Some entryA /\
  (exists s' e',
      updateFileState scriptedHost "a" universe vanishedA
      = (Returned tt, s') /\
      getFileStatus "a" s' = Some e' /\
      state e' = universe /\
      lastUpdatedAt e' = 200 /\
      status e' = READ_ERROR /\
      error e' = Some "ENOENT: no such file or directory").
Proof.
  split; [reflexivity|]. split; [|split; [reflexivity|]].
  - destruct (updateFileState_sets_status_by_verdict
                scriptedHost trackingA "a" universe entryA
                200 (mkScript [] [[("a", universe)]])
                (Returned (mkFreshness true)) (mkScript [] [])
                eq_refl eq_refl eq_refl)
      as (s' & e' & Hrun & Hget & Hst & Ht & _ & _ & [Hstatus Herr] & _).
    exists s', e'. repeat split; assumption.
  - destruct (updateFileState_sets_status_by_verdict
                scriptedHost vanishedA "a" universe entryA
                200 (mkScript [] [[]])
                (Thrown (JsError "ENOENT: no such file or directory"))
                (mkScript [] [])
                eq_refl eq_refl eq_refl)
      as (s' & e' & Hrun & Hget & Hst & Ht & _ & _ & [Hstatus Herr] & _).
    exists s', e'. repeat split; assumption.
Defined.

Lemma updateFileState_untracked_throws_witness :
  getFileStatus "b" trackingA = None /\
  updateFileState scriptedHost "b" universe trackingA
  = (Thrown (JsError "File not tracked: b"), trackingA).
Proof.
  split; [reflexivity|].
  exact (proj1 (updateFileState_untracked_throws
                  scriptedHost trackingA "b" universe eq_refl)).
Defined.


Lemma isFileStale_failure_is_stale_witness :
  getFileStatus "a" vanishedA = Some entryA /\
  exists s',
    isFileStale scriptedHost "a" vanishedA = (Returned true, s') /\
    trackedFiles s' = trackedFiles vanishedA.
Proof.
  split; [reflexivity|].
  destruct (isFileStale_failure_is_stale
              scriptedHost vanishedA "a" entryA
              (JsError "ENOENT: no such file or directory")
              (mkScript [200] []) eq_refl eq_refl)
    as (s' & Hrun & Hsame & _).
  exists s'. split; assumption.
Defined.

Lemma absent_path_is_not_stale_witness :
  Absent scriptedHost "a" (snd (removeFile "a" trackingA)) /\
  isFileStale scriptedHost "a" (snd (removeFile "a" trackingA))
  = (Returned false, snd (removeFile "a" trackingA)) /\
  getFileStatus "a" (snd (removeFile "a" trackingA)) = None.
Proof.
  split; [apply absent_removed|].
  exact (absent_path_is_not_stale scriptedHost _ "a"
           (absent_removed scriptedHost "a" trackingA)).
Defined.

Lemma refreshFileState_returns_whether_captured_witness :
  getFileStatus "a" rewrittenMeanwhile = Some entryA /\
  exists s' e',
    refreshFileState scriptedHost "a" rewrittenMeanwhile
    = (Returned true, s') /\
    getFileStatus "a" s' = Some e' /\
    state e' = universe /\
    status e' = READ_STALE.
Proof.
  split; [reflexivity|].
  destruct (proj1 (proj2 (refreshFileState_returns_whether_captured
                            scriptedHost rewrittenMeanwhile "a"))
              entryA universe
              (mkScript [200] [[("a", galaxy)]]) 200
              (mkScript [] [[("a", galaxy)]])
              (Returned (mkFreshness false)) (mkScript [] [])
              eq_refl eq_refl eq_refl eq_refl)
    as (s' & e' & Hrun & Hget & Hst & _ & Hstatus).
  exists s', e'. repeat split; assumption.
Defined.

(** * The rest of the service *)

(** ** removeFile, clear, isFileStale and the eviction, call by call *)

Section OtherCalls.

Context {W : Type}.
Variable host : Host W.
Import JsMap JsMapFacts.

Lemma delete_delete k m : delete k (delete k m) = delete k m.
Proof.
  apply delete_absent. apply get_none_keys. apply get_delete_same.
Qed.

(** X1: [removeFile] returns whether the path was tracked; afterwards the
    path is not tracked, every other path has the entry it had, options
    and world are untouched, and removing the path once more returns
    false and changes nothing. *)
Theorem removeFile_reports_and_removes :
  forall (s : State W) p,
  exists s',
    removeFile p s
    = (Returned (match getFileStatus p s with
                 | Some _ => true
                 | None => false
                 end), s') /\
    getFileStatus p s' = None /\
    (forall q, q <> p -> getFileStatus q s' = getFileStatus q s) /\
    options s' = options s /\
    world s' = world s /\
    removeFile p s' = (Returned false, s').
Proof.
  intros s p. eexists. split; [reflexivity|].
  unfold getFileStatus, removeFile. unfold_js. unfold has.
  rewrite get_delete_same, delete_delete.
  repeat split; auto.
  intros q Hq. now apply get_delete_other.
Qed.

(** X3: after [clear] no file is tracked: the list of tracked files is
    empty, every path is undefined for [getFileStatus], and [getStats]
    counts zero for each of the four statuses; options and world are
    untouched. *)
Theorem clear_forgets_everything :
  forall (s : State W),
  exists s',
    clear s = (Returned tt, s') /\
    getAllTrackedFiles s' = [] /\
    (forall p, getFileStatus p s' = None) /\
    (forall k, Stats.count k (getStats s') = Some 0) /\
    options s' = options s /\
    world s' = world s.
Proof.
  intros s. eexists. split; [reflexivity|]. simpl.
  repeat split; auto. intros k. now destruct k.
Qed.

(** X5: [isFileStale] never throws and never changes the registry or the
    options.  For an untracked path it returns false without asking the
    evaluator; for a tracked path it asks the evaluator once, about the
    stored snapshot, and returns true unless the verdict is fresh. *)
Theorem isFileStale_only_reads :
  forall (s : State W) p,
  exists b s',
    isFileStale host p s = (Returned b, s') /\
    trackedFiles s' = trackedFiles s /\
    options s' = options s /\
    match getFileStatus p s with
    | None => b = false /\ world s' = world s
    | Some e =>
        world s' = snd (checkFreshness host p (state e) (world s)) /\
        b = match fst (checkFreshness host p (state e) (world s)) with
            | Returned f => negb (isFresh f)
            | Thrown _ => true
            end
    end.
Proof.
  intros s p. destruct (getFileStatus p s) as [e|] eqn:Hget.
  - destruct (checkFreshness host p (state e) (world s)) as [r w1] eqn:Hchk.
    do 2 eexists.
    rewrite (isFileStale_tracked_eq host s p e r w1 Hget Hchk).
    split; [reflexivity|]. simpl. auto.
  - do 2 eexists. rewrite (isFileStale_untracked_eq host s p Hget).
    split; [reflexivity|]. auto.
Qed.

(** X6: [evictOldestEntry] never throws and removes at most one path.
    If no entry was first read strictly before the time it reads from the
    clock, it removes nothing.  Otherwise it picks the first entry, in the
    order of the map, among those of the smallest [firstReadAt], and
    deletes its path, unless that path is the empty string, which it
    leaves in place. *)
Theorem evictOldestEntry_takes_the_oldest :
  forall (s : State W),
    let t := fst (now host (world s)) in
    exists s',
      evictOldestEntry host s = (Returned tt, s') /\
      options s' = options s /\
      world s' = snd (now host (world s)) /\
      ((Forall (fun kv => t <= firstReadAt (snd kv)) (trackedFiles s) /\
        trackedFiles s' = trackedFiles s) \/
       (exists m1 k e m2,
           trackedFiles s = (m1 ++ (k, e) :: m2)%list /\
           firstReadAt e < t /\
           Forall (fun kv => firstReadAt e < firstReadAt (snd kv)) m1 /\
           Forall (fun kv => firstReadAt e <= firstReadAt (snd kv)) m2 /\
           trackedFiles s'
           = if String.eqb k "" then trackedFiles s
             else delete k (trackedFiles s))).
Proof.
  intros s t. subst t.
  destruct (now host (world s)) as [t w1] eqn:Hnow. simpl.
  eexists. rewrite (evictOldestEntry_eq host s t w1 Hnow).
  split; [reflexivity|]. simpl. repeat split; auto.
  destruct (scanOldest_oldest (trackedFiles s) t)
    as [[Hnone Hall] | (m1 & k & e & m2 & Hm & Hsome & Hlt & H1 & H2)].
  - left. rewrite Hnone. auto.
  - right. exists m1, k, e, m2. rewrite Hsome.
    repeat split; auto. now destruct (String.eqb k "").
Qed.

(** X16: [refreshFileState] never throws, whatever the evaluator does,
    and never adds, removes or reorders a path: the paths of the registry
    are the same afterwards, every other path keeps its entry, and the
    entry of the path keeps its [path] and its [firstReadAt]. *)
Theorem refreshFileState_never_throws :
  forall (s : State W) p,
  exists b s',
    refreshFileState host p s = (Returned b, s') /\
    options s' = options s /\
    keys (trackedFiles s') = keys (trackedFiles s) /\
    (forall q, q <> p -> getFileStatus q s' = getFileStatus q s) /\
    match getFileStatus p s with
    | None => b = false /\ getFileStatus p s' = None
    | Some e =>
        exists e', getFileStatus p s' = Some e' /\
                   path e' = path e /\ firstReadAt e' = firstReadAt e
    end.
Proof.
  intros s p. destruct (getFileStatus p s) as [e|] eqn:Hget.
  - destruct (getFileState host p (world s)) as [[st|v] w1] eqn:Hcap;
      destruct (now host w1) as [t w2] eqn:Hnow.
    + destruct (checkFreshness host p st w2) as [r w3] eqn:Hchk.
      do 2 eexists.
      rewrite (refreshFileState_captured_eq host s p e st w1 t w2 r w3);
        auto.
      split; [reflexivity|]. unfold getFileStatus in *. simpl.
      split; auto. split; [apply keys_update|].
      split; [intros q Hq; now apply get_update_other|].
      exists (verdictEntry st t r e).
      split; [now apply get_update_same|]. destruct r; auto.
    + do 2 eexists.
      rewrite (refreshFileState_failed_eq host s p e v w1 t w2); auto.
      split; [reflexivity|]. unfold getFileStatus in *. simpl.
      split; auto. split; [apply keys_update|].
      split; [intros q Hq; now apply get_update_other|].
      eexists. split; [apply get_update_same; eassumption|]. auto.
  - do 2 eexists. rewrite (refreshFileState_untracked_eq host s p Hget).
    split; [reflexivity|]. auto.
Qed.

End OtherCalls.

(** ** What every history keeps *)

Section HistoryInvariants.

Context {W : Type}.
Variable host : Host W.
Import JsMap JsMapFacts.

Lemma updateFileState_change (s : State W) filePath st :
  exists f,
    EntryChange f /\
    trackedFiles (snd (updateFileState host filePath st s))
    = update filePath f (trackedFiles s).
Proof.
  destruct (getFileStatus filePath s) as [e|] eqn:Hget.
  - destruct (now host (world s)) as [t w1] eqn:Hnow.
    destruct (checkFreshness host filePath st w1) as [r w2] eqn:Hchk.
    exists (verdictEntry st t r). split; [constructor|].
    now rewrite (updateFileState_tracked_eq host s filePath st e t w1 r w2).
  - exists (fun e => e). split; [constructor|].
    rewrite updateFileState_untracked_eq; auto.
    symmetry. now apply update_absent.
Qed.

Lemma refreshFileState_change (s : State W) filePath :
  exists f,
    EntryChange f /\
    trackedFiles (snd (refreshFileState host filePath s))
    = update filePath f (trackedFiles s).
Proof.
  destruct (getFileStatus filePath s) as [e|] eqn:Hget.
  - destruct (getFileState host filePath (world s)) as [[st|v] w1] eqn:Hcap;
      destruct (now host w1) as [t w2] eqn:Hnow.
    + destruct (checkFreshness host filePath st w2) as [r w3] eqn:Hchk.
      exists (verdictEntry st t r). split; [constructor|].
      now rewrite (refreshFileState_captured_eq
                     host s filePath e st w1 t w2 r w3).
    + eexists. split; [apply (change_failed t (errorText v))|].
      now rewrite (refreshFileState_failed_eq host s filePath e v w1 t w2).
  - exists (fun e => e). split; [constructor|].
    rewrite refreshFileState_untracked_eq; auto.
    symmetry. now apply update_absent.
Qed.

Lemma allEntries_set P k v m :
  allEntries P m -> P k v -> allEntries P (set k v m).
Proof.
  unfold allEntries. intros Hm Hv.
  induction m as [|[k' v'] m IH]; simpl.
  - constructor; auto.
  - inversion Hm; subst.
    destruct (String.eqb_spec k k') as [->|Hne]; constructor; auto.
Qed.

Lemma allEntries_update P k f m :
  allEntries P m ->
  (forall q e, P q e -> P q (f e)) ->
  allEntries P (update k f m).
Proof.
  unfold allEntries. intros Hm Hf.
  induction m as [|[k' v'] m IH]; simpl; auto.
  inversion Hm; subst.
  destruct (String.eqb k k'); constructor; simpl in *; auto.
Qed.

Lemma allEntries_delete P k m : allEntries P m -> allEntries P (delete k m).
Proof.
  unfold allEntries, delete. intros Hm. apply Forall_forall.
  intros kv Hin. apply filter_In in Hin.
  rewrite Forall_forall in Hm. apply Hm. tauto.
Qed.

(** A property of entries that a new registration has and that no change
    of an entry loses holds of all entries after every call. *)
Lemma exec_allEntries (P : string -> FileEntry -> Prop) :
  (forall p st t1 t2, P p (mkEntry p st READ_CURRENT t1 t2 None)) ->
  (forall q f e, EntryChange f -> P q e -> P q (f e)) ->
  forall (c : Call) (s : State W),
    allEntries P (trackedFiles s) ->
    allEntries P (trackedFiles (exec host c s)).
Proof.
  intros Hnew Hchange c s Hm.
  assert (Hregister : forall q st,
            allEntries P (trackedFiles (snd (registerFile host q st s)))).
  { intros q st.
    destruct (registerFile_frame host s q st)
      as (t1 & t2 & _ & [Hr | [k Hr]]); rewrite Hr.
    - apply allEntries_set; auto.
    - apply allEntries_delete, allEntries_set; auto. }
  destruct c as [q st|q st|q|q|q| |q st]; simpl; auto.
  - destruct (updateFileState_change s q st) as (f & Hf & Hr).
    rewrite Hr. apply allEntries_update; eauto.
  - destruct (isFileStale_frame host s q) as [_ Hr]. now rewrite Hr.
  - destruct (refreshFileState_change s q) as (f & Hf & Hr).
    rewrite Hr. apply allEntries_update; eauto.
  - now apply allEntries_delete.
  - constructor.
  - rewrite autoTrackFile_cases.
    destruct (trackAllFiles (options s)); auto.
Qed.

Lemma run_allEntries (P : string -> FileEntry -> Prop) :
  (forall p st t1 t2, P p (mkEntry p st READ_CURRENT t1 t2 None)) ->
  (forall q f e, EntryChange f -> P q e -> P q (f e)) ->
  forall (calls : list Call) (s : State W),
    allEntries P (trackedFiles s) ->
    allEntries P (trackedFiles (run host calls s)).
Proof.
  intros Hnew Hchange calls.
  induction calls as [|c calls IH]; intros s Hm; simpl; auto.
  apply IH. now apply exec_allEntries.
Qed.

Lemma exec_NoDup (c : Call) (s : State W) :
  NoDup (keys (trackedFiles s)) ->
  NoDup (keys (trackedFiles (exec host c s))).
Proof.
  intros Hm.
  assert (Hregister : forall q st,
            NoDup (keys (trackedFiles (snd (registerFile host q st s))))).
  { intros q st.
    destruct (registerFile_frame host s q st)
      as (t1 & t2 & _ & [Hr | [k Hr]]); rewrite Hr.
    - now apply NoDup_keys_set.
    - now apply NoDup_keys_delete, NoDup_keys_set. }
  destruct c as [q st|q st|q|q|q| |q st]; simpl; auto.
  - destruct (updateFileState_change s q st) as (f & _ & Hr).
    rewrite Hr. now rewrite keys_update.
  - destruct (isFileStale_frame host s q) as [_ Hr]. now rewrite Hr.
  - destruct (refreshFileState_change s q) as (f & _ & Hr).
    rewrite Hr. now rewrite keys_update.
  - now apply NoDup_keys_delete.
  - constructor.
  - rewrite autoTrackFile_cases.
    destruct (trackAllFiles (options s)); auto.
Qed.

Lemma run_NoDup (calls : list Call) (s : State W) :
  NoDup (keys (trackedFiles s)) ->
  NoDup (keys (trackedFiles (run host calls s))).
Proof.
  revert s. induction calls as [|c calls IH]; intros s Hm; simpl; auto.
  apply IH. now apply exec_NoDup.
Qed.

Lemma get_In k m e : get k m = Some e -> In (k, e) m.
Proof.
  induction m as [|[k' v'] m IH]; simpl; [discriminate|].
  destruct (String.eqb_spec k k') as [->|Hne].
  - intros [= ->]. auto.
  - auto.
Qed.

Lemma In_get k m e : NoDup (keys m) -> In (k, e) m -> get k m = Some e.
Proof.
  unfold keys. induction m as [|[k' v'] m IH]; simpl; [tauto|].
  intros Hnd [Heq|Hin]; inversion Hnd; subst.
  - injection Heq as -> ->. now rewrite String.eqb_refl.
  - destruct (String.eqb_spec k k') as [->|Hne]; auto.
    exfalso. apply H1. apply (in_map fst) in Hin. exact Hin.
Qed.

(** X7: after any history of calls on a new service, the entry
    [getFileStatus] returns for a path carries that path in its [path]
    field, and every entry listed by [getAllTrackedFiles] is the one
    [getFileStatus] returns for its [path]. *)
Theorem entry_path_is_its_key :
  forall (o : FileTrackerServiceOptions) (w : W) (calls : list Call),
    let s := run host calls (constructor o w) in
    (forall p e, getFileStatus p s = Some e -> path e = p) /\
    (forall e, In e (getAllTrackedFiles s) ->
               getFileStatus (path e) s = Some e).
Proof.
  intros o w calls s.
  assert (Hall : allEntries (fun k e => path e = k) (trackedFiles s)).
  { apply run_allEntries; [reflexivity| |constructor].
    intros q f e Hf He. destruct Hf as [|st t [r|v]|t msg]; auto. }
  assert (Hnd : NoDup (keys (trackedFiles s)))
    by (apply run_NoDup; constructor).
  unfold allEntries in Hall. rewrite Forall_forall in Hall.
  split.
  - intros p e Hget. apply get_In in Hget. exact (Hall _ Hget).
  - intros e Hin. unfold getAllTrackedFiles, values in Hin.
    apply in_map_iff in Hin. destruct Hin as ([k e'] & Heq & Hin).
    simpl in Heq. subst e'. pose proof (Hall _ Hin) as Hk. simpl in Hk.
    rewrite Hk. unfold getFileStatus. now apply In_get.
Qed.

(** X8: after any history of calls on a new service, an entry has an
    error message exactly when its status is [read_error]. *)
Theorem error_message_iff_status_error :
  forall (o : FileTrackerServiceOptions) (w : W) (calls : list Call) p e,
    getFileStatus p (run host calls (constructor o w)) = Some e ->
    (status e = READ_ERROR <-> error e <> None).
Proof.
  intros o w calls p e Hget.
  assert (Hall : allEntries
                   (fun _ e => status e = READ_ERROR <-> error e <> None)
                   (trackedFiles (run host calls (constructor o w)))).
  { apply run_allEntries; [| |constructor].
    - intros q st t1 t2. simpl. split; [discriminate|congruence].
    - intros q f e0 Hf He.
      destruct Hf as [|st t [[[]]|v]|t msg]; simpl; auto;
        split; try discriminate; try congruence; auto. }
  unfold allEntries in Hall. rewrite Forall_forall in Hall.
  apply get_In in Hget. exact (Hall _ Hget).
Qed.

(** X2: after any history of calls on a new service, [removeFile] on a
    tracked path returns true and leaves exactly one entry fewer; on a
    path that is not tracked it returns false and leaves the registry as
    it is. *)
Theorem removeFile_takes_one_entry :
  forall (o : FileTrackerServiceOptions) (w : W) (calls : list Call) p,
    let s := run host calls (constructor o w) in
    match getFileStatus p s with
    | Some _ =>
        fst (removeFile p s) = Returned true /\
        size (trackedFiles (snd (removeFile p s)))
        = size (trackedFiles s) - 1
    | None =>
        fst (removeFile p s) = Returned false /\
        trackedFiles (snd (removeFile p s)) = trackedFiles s
    end.
Proof.
  intros o w calls p s.
  assert (Hnd : NoDup (keys (trackedFiles s)))
    by (apply run_NoDup; constructor).
  unfold getFileStatus, removeFile. unfold_js. unfold has.
  destruct (get p (trackedFiles s)) as [e|] eqn:Hget.
  - split; auto. apply size_delete_present; auto.
    apply get_In in Hget. apply (in_map fst) in Hget. exact Hget.
  - split; auto. apply delete_absent. now apply get_none_keys.
Qed.

End HistoryInvariants.

(** ** Capacity and dates under a well-behaved clock *)

Section TickingClock.

Context {W : Type}.
Variable host : Host W.
Import JsMap JsMapFacts.

(** Of two readings of the clock in a row, the second is strictly later
    than the first. *)
Hypothesis ticks :
  forall w, fst (now host w) < fst (now host (snd (now host w))).

Lemma In_keys_set x k v m : In x (keys (set k v m)) -> x = k \/ In x (keys m).
Proof.
  unfold keys. induction m as [|[k' v'] m IH]; simpl.
  - intros [<-|[]]. auto.
  - destruct (String.eqb k k'); simpl; [tauto|].
    intros [<-|Hin]; auto. destruct (IH Hin); auto.
Qed.

Lemma In_keys_delete x k m : In x (keys (delete k m)) -> In x (keys m).
Proof. rewrite keys_delete. intros H. apply filter_In in H. tauto. Qed.

Lemma size_delete_le k m : size (delete k m) <= size m.
Proof.
  unfold size, delete. apply inj_le. apply filter_length_le.
Qed.

Lemma size_nonneg (m : JsMap.t) : 0 <= size m.
Proof. unfold size. lia. Qed.

Lemma registerFile_withinCapacity (s : State W) p st :
  withinCapacity s -> p <> "" ->
  withinCapacity (snd (registerFile host p st s)).
Proof.
  intros (Hnd & Hempty & Hsize) Hp.
  destruct (now host (world s)) as [t1 w1] eqn:H1.
  destruct (now host w1) as [t2 w2] eqn:H2.
  destruct (now host w2) as [t3 w3] eqn:H3.
  assert (Hlater : t1 < t3).
  { pose proof (ticks (world s)) as Ha. rewrite H1 in Ha. simpl in Ha.
    rewrite H2 in Ha. simpl in Ha.
    pose proof (ticks w1) as Hb. rewrite H2 in Hb. simpl in Hb.
    rewrite H3 in Hb. simpl in Hb. lia. }
  destruct (registerFile_keeps_capacity host s p st t1 w1 t2 w2 t3 w3
              H1 H2 H3 Hnd Hsize Hlater Hp Hempty) as (Hsz & Hnd' & _).
  split; [exact Hnd'|]. split; [|exact Hsz].
  destruct (registerFile_frame host s p st)
    as (u1 & u2 & _ & [Hr | [k Hr]]); rewrite Hr; intros Hin.
  - apply In_keys_set in Hin. destruct Hin; auto.
  - apply In_keys_delete, In_keys_set in Hin. destruct Hin; auto.
Qed.

Lemma exec_withinCapacity (c : Call) (s : State W) :
  withinCapacity s -> registers "" c = false ->
  withinCapacity (exec host c s).
Proof.
  intros Hs Hreg. pose proof Hs as (Hnd & Hempty & Hsize).
  pose proof (size_nonneg (trackedFiles s)) as Hpos.
  pose proof (exec_options host c s) as Hopt.
  destruct c as [q st|q st|q|q|q| |q st];
    try (change (String.eqb "" q = false) in Hreg;
         apply String.eqb_neq in Hreg);
    unfold withinCapacity; try rewrite Hopt; simpl; simpl in Hopt.
  - fold (withinCapacity (snd (registerFile host q st s))) in *.
    rewrite <- Hopt.
    apply (registerFile_withinCapacity s q st Hs). congruence.
  - destruct (updateFileState_change host s q st) as (f & _ & Hr).
    rewrite Hr, keys_update, size_update. auto.
  - destruct (isFileStale_frame host s q) as [_ Hr]. rewrite Hr. auto.
  - destruct (refreshFileState_change host s q) as (f & _ & Hr).
    rewrite Hr, keys_update, size_update. auto.
  - split; [now apply NoDup_keys_delete|]. split.
    + intros Hin. now apply In_keys_delete in Hin.
    + pose proof (size_delete_le q (trackedFiles s)). lia.
  - split; [constructor|]. split; [tauto|]. unfold size. simpl. lia.
  - rewrite <- Hopt. rewrite autoTrackFile_cases.
    destruct (trackAllFiles (options s)) eqn:Hall; auto.
    apply (registerFile_withinCapacity s q st Hs). congruence.
Qed.

(** X9: when every reading of the clock is strictly later than the
    reading before it, [maxTrackedFiles] is not negative and the empty
    string is never registered as a path, then after every history of
    calls on a new service the number of tracked files is at most
    [maxTrackedFiles]. *)
Theorem capacity_kept_while_clock_ticks :
  forall (o : FileTrackerServiceOptions) (w : W) (calls : list Call),
    0 <= nullish (opt_maxTrackedFiles o) 1000 ->
    forallb (fun c => negb (registers "" c)) calls = true ->
    let s := run host calls (constructor o w) in
    size (trackedFiles s) <= maxTrackedFiles (options s) /\
    maxTrackedFiles (options s) = nullish (opt_maxTrackedFiles o) 1000.
Proof.
  intros o w calls Hmax Hcalls.
  assert (Hgen : forall s0 : State W,
             withinCapacity s0 ->
             withinCapacity (run host calls s0) /\
             options (run host calls s0) = options s0).
  { induction calls as [|c calls IH]; intros s0 Hs0; simpl; auto.
    simpl in Hcalls. apply andb_prop in Hcalls. destruct Hcalls as [Hc Hcs].
    apply negb_true_iff in Hc.
    destruct (IH Hcs (exec host c s0)) as [Hcap Hopt].
    - now apply exec_withinCapacity.
    - split; auto. now rewrite Hopt, exec_options. }
  destruct (Hgen (constructor o w)) as [(_ & _ & Hsz) Hopt].
  - split; [constructor|]. split; [simpl; tauto|]. simpl. exact Hmax.
  - cbv zeta. rewrite Hopt in *. split; [exact Hsz|reflexivity].
Qed.

End TickingClock.

Section MonotoneClock.

Context {W : Type}.
Variable host : Host W.
Import JsMap JsMapFacts.

(** The time of the world, which [new Date()] reads and which no access
    of the clock or of the files sets back. *)
Variable clock : W -> Z.
Hypothesis now_reads : forall w, fst (now host w) = clock w.
Hypothesis now_later : forall w, clock w <= clock (snd (now host w)).
Hypothesis capture_later :
  forall p w, clock w <= clock (snd (getFileState host p w)).
Hypothesis compare_later :
  forall p st w, clock w <= clock (snd (checkFreshness host p st w)).

Lemma allEntries_change (P Q : string -> FileEntry -> Prop) k f m :
  allEntries P m ->
  (forall q e, P q e -> Q q e) ->
  (forall q e, P q e -> Q q (f e)) ->
  allEntries Q (update k f m).
Proof.
  unfold allEntries. intros Hm Hweak Hf.
  induction m as [|[k' v'] m IH]; simpl; auto.
  inversion Hm; subst.
  destruct (String.eqb k k'); constructor; simpl in *; auto.
  clear IH. rewrite Forall_forall in *. intros kv Hin. auto.
Qed.

Lemma allEntries_weaken (P Q : string -> FileEntry -> Prop) m :
  allEntries P m -> (forall q e, P q e -> Q q e) -> allEntries Q m.
Proof.
  unfold allEntries. intros Hm Hweak.
  rewrite Forall_forall in *. intros kv Hin. auto.
Qed.

Lemma exec_dated (c : Call) (s : State W) :
  allEntries (dated (clock (world s))) (trackedFiles s) ->
  allEntries (dated (clock (world (exec host c s))))
             (trackedFiles (exec host c s)).
Proof.
  intros Hm.
  assert (Hregister : forall q st,
    allEntries (dated (clock (world (snd (registerFile host q st s)))))
               (trackedFiles (snd (registerFile host q st s)))).
  { intros q st.
    destruct (now host (world s)) as [t1 w1] eqn:H1.
    destruct (now host w1) as [t2 w2] eqn:H2.
    pose proof (now_reads (world s)) as R1. rewrite H1 in R1. simpl in R1.
    pose proof (now_reads w1) as R2. rewrite H2 in R2. simpl in R2.
    pose proof (now_later (world s)) as L1. rewrite H1 in L1. simpl in L1.
    pose proof (now_later w1) as L2. rewrite H2 in L2. simpl in L2.
    rewrite (registerFile_eq host s q st _ _ _ _ H1 H2). cbv zeta.
    assert (Hset : allEntries (dated (clock w2))
                     (set q (mkEntry q st READ_CURRENT t1 t2 None)
                          (trackedFiles s))).
    { apply allEntries_set.
      - apply (allEntries_weaken _ _ _ Hm). unfold dated. intros _ e. lia.
      - unfold dated. simpl. lia. }
    destruct (size _ >? _); simpl; auto.
    destruct (now host w2) as [t3 w3] eqn:H3.
    pose proof (now_later w2) as L3. rewrite H3 in L3. simpl in L3.
    rewrite (evictOldestEntry_eq host
               (mkState (set q (mkEntry q st READ_CURRENT t1 t2 None)
                             (trackedFiles s)) (options s) w2) t3 w3 H3).
    simpl.
    assert (Hset' : allEntries (dated (clock w3))
                      (set q (mkEntry q st READ_CURRENT t1 t2 None)
                           (trackedFiles s))).
    { apply (allEntries_weaken _ _ _ Hset). unfold dated. intros _ e. lia. }
    destruct (fst (scanOldest _ t3)) as [k|]; auto.
    destruct (negb (String.eqb k "")); auto.
    now apply allEntries_delete. }
  destruct c as [q st|q st|q|q|q| |q st]; simpl; auto.
  - destruct (getFileStatus q s) as [e|] eqn:Hget.
    + destruct (now host (world s)) as [t w1] eqn:H1.
      destruct (checkFreshness host q st w1) as [r w2] eqn:H2.
      pose proof (now_reads (world s)) as R1. rewrite H1 in R1. simpl in R1.
      pose proof (now_later (world s)) as L1. rewrite H1 in L1. simpl in L1.
      pose proof (compare_later q st w1) as L2. rewrite H2 in L2. simpl in L2.
      rewrite (updateFileState_tracked_eq host s q st e t w1 r w2); auto.
      simpl. apply (allEntries_change _ _ _ _ _ Hm); unfold dated.
      * intros _ e0. lia.
      * intros _ e0. destruct r; simpl; lia.
    + rewrite updateFileState_untracked_eq; auto.
  - destruct (getFileStatus q s) as [e|] eqn:Hget.
    + destruct (checkFreshness host q (state e) (world s)) as [r w1] eqn:H1.
      pose proof (compare_later q (state e) (world s)) as L1.
      rewrite H1 in L1. simpl in L1.
      rewrite (isFileStale_tracked_eq host s q e r w1 Hget H1). simpl.
      apply (allEntries_weaken _ _ _ Hm). unfold dated. intros _ e0. lia.
    + rewrite isFileStale_untracked_eq; auto.
  - destruct (getFileStatus q s) as [e|] eqn:Hget.
    + destruct (getFileState host q (world s)) as [[st|v] w1] eqn:H1;
        destruct (now host w1) as [t w2] eqn:H2;
        pose proof (capture_later q (world s)) as L1; rewrite H1 in L1;
        simpl in L1;
        pose proof (now_reads w1) as R2; rewrite H2 in R2; simpl in R2;
        pose proof (now_later w1) as L2; rewrite H2 in L2; simpl in L2.
      * destruct (checkFreshness host q st w2) as [r w3] eqn:H3.
        pose proof (compare_later q st w2) as L3. rewrite H3 in L3.
        simpl in L3.
        rewrite (refreshFileState_captured_eq host s q e st w1 t w2 r w3);
          auto.
        simpl. apply (allEntries_change _ _ _ _ _ Hm); unfold dated.
        -- intros _ e0. lia.
        -- intros _ e0. destruct r; simpl; lia.
      * rewrite (refreshFileState_failed_eq host s q e v w1 t w2); auto.
        simpl. apply (allEntries_change _ _ _ _ _ Hm); unfold dated.
        -- intros _ e0. lia.
        -- intros _ e0. simpl. lia.
    + rewrite refreshFileState_untracked_eq; auto.
  - now apply allEntries_delete.
  - constructor.
  - rewrite autoTrackFile_cases.
    destruct (trackAllFiles (options s)); auto.
Qed.

(** X10: when the clock is never set back (neither between two readings
    nor while the evaluator looks at a file), then after every history of
    calls on a new service each tracked entry has
    [firstReadAt <= lastUpdatedAt]. *)
Theorem lastUpdatedAt_not_before_firstReadAt :
  forall (o : FileTrackerServiceOptions) (w : W) (calls : list Call) p e,
    getFileStatus p (run host calls (constructor o w)) = Some e ->
    firstReadAt e <= lastUpdatedAt e.
Proof.
  intros o w calls p e Hget.
  assert (Hgen : forall s0 : State W,
             allEntries (dated (clock (world s0))) (trackedFiles s0) ->
             allEntries (dated (clock (world (run host calls s0))))
                        (trackedFiles (run host calls s0))).
  { clear Hget.
    induction calls as [|c calls IH]; intros s0 Hs0; simpl; auto.
    apply IH. now apply exec_dated. }
  specialize (Hgen (constructor o w) (Forall_nil _)).
  unfold allEntries in Hgen. rewrite Forall_forall in Hgen.
  apply get_In in Hget. apply Hgen in Hget. apply Hget.
Qed.

End MonotoneClock.

(** ** autoTrackFile, the lists by status and the summary *)

Section Queries.

Context {W : Type}.
Variable host : Host W.
Import JsMap JsMapFacts.

(** X4: on a service built without [trackAllFiles] (or with it false),
    files offered through [autoTrackFile] are not tracked: after any
    history in which [registerFile] itself is never called, the registry
    is empty. *)
Theorem autoTrackFile_off_tracks_nothing :
  forall (o : FileTrackerServiceOptions) (w : W) (calls : list Call),
    nullish (opt_trackAllFiles o) false = false ->
    forallb (fun c => match c with
                      | RegisterFile _ _ => false
                      | _ => true
                      end) calls = true ->
    getAllTrackedFiles (run host calls (constructor o w)) = [] /\
    forall p, getFileStatus p (run host calls (constructor o w)) = None.
Proof.
  intros o w calls Hoff Hcalls.
  assert (Hgen : forall s0 : State W,
             trackedFiles s0 = [] -> trackAllFiles (options s0) = false ->
             trackedFiles (run host calls s0) = []).
  { induction calls as [|c calls IH]; intros s0 Hm Ho; simpl; auto.
    simpl in Hcalls. apply andb_prop in Hcalls. destruct Hcalls as [Hc Hcs].
    apply (IH Hcs); [|now rewrite exec_options].
    destruct c as [q st|q st|q|q|q| |q st]; simpl; try discriminate; auto.
    - destruct (updateFileState_change host s0 q st) as (f & _ & Hr).
      rewrite Hr, Hm. reflexivity.
    - destruct (isFileStale_frame host s0 q) as [_ Hr]. now rewrite Hr.
    - destruct (refreshFileState_change host s0 q) as (f & _ & Hr).
      rewrite Hr, Hm. reflexivity.
    - rewrite Hm. reflexivity.
    - rewrite autoTrackFile_cases, Ho. exact Hm. }
  specialize (Hgen (constructor o w) eq_refl Hoff).
  unfold getAllTrackedFiles, getFileStatus. rewrite Hgen. auto.
Qed.

Lemma filter_status_partition (l : list FileEntry) :
  Forall (fun e => status e <> NOT_READ) l ->
  Permutation
    (filter (fun e => FileStatus_eqb (status e) READ_CURRENT) l
     ++ filter (fun e => FileStatus_eqb (status e) READ_STALE) l
     ++ filter (fun e => FileStatus_eqb (status e) READ_ERROR) l)%list
    l.
Proof.
  induction 1 as [|e l He Hl IH]; simpl; [constructor|].
  destruct (status e); simpl; try congruence.
  - now constructor.
  - apply Permutation_sym. apply Permutation_cons_app.
    now apply Permutation_sym.
  - apply Permutation_sym. rewrite app_assoc.
    apply Permutation_cons_app. rewrite <- app_assoc.
    now apply Permutation_sym.
Qed.

Lemma everRead_values (m : JsMap.t) :
  everRead m -> Forall (fun e => status e <> NOT_READ) (values m).
Proof.
  unfold everRead, values. intros H. induction H; simpl; constructor; auto.
Qed.

Lemma filesByStatus_cover (s : State W) :
  everRead (trackedFiles s) ->
  Permutation
    (getFilesByStatus READ_CURRENT s ++ getFilesByStatus READ_STALE s
     ++ getFilesByStatus READ_ERROR s)%list
    (getAllTrackedFiles s).
Proof.
  intros H. apply filter_status_partition. now apply everRead_values.
Qed.

Lemma In_getFilesByStatus (s : State W) st e :
  In e (getFilesByStatus st s) <->
  In e (getAllTrackedFiles s) /\ status e = st.
Proof.
  unfold getFilesByStatus. rewrite filter_In. now rewrite StatsFacts.eqb_eq.
Qed.

(** X11: after any history of calls on a new service, the lists
    [getFilesByStatus] gives for current, stale and error hold every
    tracked file exactly once between them, the list for [not_read] is
    empty, and the list for a status holds exactly the tracked entries of
    that status. *)
Theorem getFilesByStatus_partition :
  forall (o : FileTrackerServiceOptions) (w : W) (calls : list Call),
    let s := run host calls (constructor o w) in
    Permutation
      (getFilesByStatus READ_CURRENT s ++ getFilesByStatus READ_STALE s
       ++ getFilesByStatus READ_ERROR s)%list
      (getAllTrackedFiles s) /\
    getFilesByStatus NOT_READ s = [] /\
    (forall st e, In e (getFilesByStatus st s) <->
                  In e (getAllTrackedFiles s) /\ status e = st).
Proof.
  intros o w calls s.
  assert (Hread : Forall (fun e => status e <> NOT_READ)
                         (getAllTrackedFiles s)).
  { apply everRead_values. apply run_everRead. constructor. }
  split; [now apply filter_status_partition|]. split.
  - unfold getFilesByStatus.
    induction Hread as [|e l He Hl IH]; simpl; auto.
    destruct (status e); simpl; congruence.
  - intros st e. apply In_getFilesByStatus.
Qed.

(** The counters keep the four keys in the order of the enum. *)
Lemma getStats_shape (s : State W) :
  getStats s
  = [(NOT_READ, Num (countStatus NOT_READ (getAllTrackedFiles s)));
     (READ_CURRENT, Num (countStatus READ_CURRENT (getAllTrackedFiles s)));
     (READ_STALE, Num (countStatus READ_STALE (getAllTrackedFiles s)));
     (READ_ERROR, Num (countStatus READ_ERROR (getAllTrackedFiles s)))].
Proof.
  assert (Hshape : forall (l : list FileEntry) a b c d,
    exists a' b' c' d',
      fold_left (fun stats entry => Stats.incr (status entry) stats) l
                [(NOT_READ, Num a); (READ_CURRENT, Num b);
                 (READ_STALE, Num c); (READ_ERROR, Num d)]
      = [(NOT_READ, Num a'); (READ_CURRENT, Num b');
         (READ_STALE, Num c'); (READ_ERROR, Num d')]).
  { induction l as [|e l IH]; intros a b c d; simpl.
    - now exists a, b, c, d.
    - destruct (status e); apply IH. }
  destruct (Hshape (getAllTrackedFiles s) 0 0 0 0) as (a & b & c & d & Heq).
  pose proof (StatsFacts.count_getStats s NOT_READ) as H0.
  pose proof (StatsFacts.count_getStats s READ_CURRENT) as H1.
  pose proof (StatsFacts.count_getStats s READ_STALE) as H2.
  pose proof (StatsFacts.count_getStats s READ_ERROR) as H3.
  unfold getStats, getAllTrackedFiles in *.
  change zeroStats
    with [(NOT_READ, Num 0); (READ_CURRENT, Num 0);
          (READ_STALE, Num 0); (READ_ERROR, Num 0)] in *.
  rewrite Heq in *. unfold Stats.count in *. simpl in *.
  congruence.
Qed.

(** X12: after any history of calls on a new service, [getSummary] of
    the API gives the number of tracked files as [totalTracked] and the
    lengths of the lists of current, stale and error files as the three
    other counts, which add up to [totalTracked]. *)
Theorem getSummary_counts_the_registry :
  forall (o : FileTrackerServiceOptions) (w : W) (calls : list Call),
    let s := run host calls (constructor o w) in
    let n st := Z.of_nat (List.length (getFilesByStatus st s)) in
    FileStatusAPI.getSummary s
    = mkSummary (Num (size (trackedFiles s)))
                (Some (Num (n READ_CURRENT)))
                (Some (Num (n READ_STALE)))
                (Some (Num (n READ_ERROR))) /\
    n READ_CURRENT + n READ_STALE + n READ_ERROR = size (trackedFiles s).
Proof.
  intros o w calls s n.
  pose proof (StatsFacts.countStatus_total (getAllTrackedFiles s)) as Htot.
  assert (Hzero : countStatus NOT_READ (getAllTrackedFiles s) = 0).
  { apply StatsFacts.countStatus_everRead. apply run_everRead. constructor. }
  assert (Hsize : Z.of_nat (List.length (getAllTrackedFiles s))
                  = size (trackedFiles s)).
  { unfold getAllTrackedFiles, values, size. now rewrite length_map. }
  unfold FileStatusAPI.getSummary. rewrite getStats_shape. simpl.
  subst n. unfold countStatus in *. fold (getFilesByStatus NOT_READ s) in *.
  fold (getFilesByStatus READ_CURRENT s) in *.
  fold (getFilesByStatus READ_STALE s) in *.
  fold (getFilesByStatus READ_ERROR s) in *.
  split; [|lia]. f_equal. f_equal. lia.
Qed.

(** X14: after any history of calls on a new service, every tracked file
    is either in [getCurrentFiles] or in [getFilesNeedingAttention] of the
    API, and in one place only; [getAllReadFiles] holds the current and
    the stale entries and no entry in error. *)
Theorem current_or_needing_attention :
  forall (o : FileTrackerServiceOptions) (w : W) (calls : list Call),
    let s := run host calls (constructor o w) in
    Permutation
      (FileStatusAPI.getCurrentFiles s
       ++ FileStatusAPI.getFilesNeedingAttention s)%list
      (getAllTrackedFiles s) /\
    (forall e, In e (FileStatusAPI.getAllReadFiles s) <->
               In e (getAllTrackedFiles s) /\
               (status e = READ_CURRENT \/ status e = READ_STALE)).
Proof.
  intros o w calls s. split.
  - apply filesByStatus_cover. apply run_everRead. constructor.
  - intros e. unfold FileStatusAPI.getAllReadFiles,
      FileStatusAPI.getCurrentFiles, FileStatusAPI.getStaleFiles.
    rewrite in_app_iff, !In_getFilesByStatus. tauto.
Qed.

(** X13: the API never has a file to report.  Its service is private and
    none of its methods registers a file, so after any sequence of
    methods on the instance the service is as it was made: every path is
    undefined and not stale, the summary is all zeros and the lists are
    empty. *)
Theorem api_service_stays_empty :
  forall (w : W) (ms : list FileStatusAPI.Method),
    let s := FileStatusAPI.calls host ms (FileStatusAPI.newInstance w) in
    s = FileStatusAPI.newInstance w /\
    (forall p, getFileStatus p s = None /\
               isFileStale host p s = (Returned false, s)) /\
    FileStatusAPI.getSummary s
    = mkSummary (Num 0) (Some (Num 0)) (Some (Num 0)) (Some (Num 0)) /\
    FileStatusAPI.getAllReadFiles s = [] /\
    FileStatusAPI.getFilesNeedingAttention s = [].
Proof.
  intros w ms s.
  assert (Hs : s = FileStatusAPI.newInstance w).
  { subst s. induction ms as [|m ms IH]; simpl; auto.
    destruct m; simpl; auto. }
  rewrite Hs. repeat split; auto.
Qed.

End Queries.

(** ** Witnesses for the rest of the service *)

Lemma autoTrackFile_off_tracks_nothing_witness :
  nullish (opt_trackAllFiles (mkOptions None None None None)) false = false /\
  getAllTrackedFiles
    (run scriptedHost
         [AutoTrackFile "a" hello; RefreshFileState "a";
          AutoTrackFile "b" universe]
         (constructor (mkOptions None None None None) (mkScript [1; 2] [])))
  = [].
Proof.
  split; [reflexivity|].
  exact (proj1 (autoTrackFile_off_tracks_nothing
                  scriptedHost (mkOptions None None None None)
                  (mkScript [1; 2] [])
                  [AutoTrackFile "a" hello; RefreshFileState "a";
                   AutoTrackFile "b" universe]
                  eq_refl eq_refl)).
Defined.

Lemma error_message_iff_status_error_witness :
  getFileStatus "a"
    (run scriptedHost [RegisterFile "a" hello; RefreshFileState "a"]
         (constructor (mkOptions None None (Some 2) None)
                      (mkScript [1; 2; 3] [])))
  = Some (mkEntry "a" hello READ_ERROR 1 3
                  (Some "ENOENT: no such file or directory")) /\
  (READ_ERROR = READ_ERROR <->
   Some "ENOENT: no such file or directory" <> None).
Proof.
  split; [reflexivity|].
  exact (error_message_iff_status_error
           scriptedHost (mkOptions None None (Some 2) None)
           (mkScript [1; 2; 3] [])
           [RegisterFile "a" hello; RefreshFileState "a"] "a"
           (mkEntry "a" hello READ_ERROR 1 3
                    (Some "ENOENT: no such file or directory"))
           eq_refl).
Defined.

Lemma capacity_kept_while_clock_ticks_witness :
  (forall w, fst (now tickingHost w)
             < fst (now tickingHost (snd (now tickingHost w)))) /\
  JsMap.size
    (trackedFiles
       (run tickingHost sampleHistory
            (constructor (mkOptions None None (Some 2) None)
                         (1000, mkScript [] [[]; [("b", universe)]]))))
  <= 2.
Proof.
  assert (Hticks : forall w, fst (now tickingHost w)
                             < fst (now tickingHost (snd (now tickingHost w))))
    by (intros w; simpl; lia).
  split; [exact Hticks|].
  destruct (capacity_kept_while_clock_ticks
              tickingHost Hticks (mkOptions None None (Some 2) None)
              (1000, mkScript [] [[]; [("b", universe)]]) sampleHistory)
    as [Hsize Hmax].
  - simpl. lia.
  - reflexivity.
  - rewrite Hmax in Hsize. exact Hsize.
Defined.

Lemma lastUpdatedAt_not_before_firstReadAt_witness :
  getFileStatus "a"
    (run tickingHost sampleHistory
         (constructor (mkOptions None None (Some 2) None)
                      (1000, mkScript [] [[]; [("b", universe)]])))
  = Some (mkEntry "a" galaxy READ_CURRENT 1009 1010 None) /\
  1009 <= 1010.
Proof.
  split; [reflexivity|].
  apply (lastUpdatedAt_not_before_firstReadAt
           tickingHost fst
           (fun w => eq_refl)
           (fun w => Z.lt_le_incl _ _ (Z.lt_succ_diag_r (fst w))))
    with (o := mkOptions None None (Some 2) None)
         (w := (1000, mkScript [] [[]; [("b", universe)]]))
         (calls := sampleHistory) (p := "a")
         (e := mkEntry "a" galaxy READ_CURRENT 1009 1010 None).
  - intros p w. simpl.
    destruct (scriptedGetFileState p (snd w)). simpl. lia.
  - intros p st w. simpl.
    destruct (scriptedCheckFreshness p st (snd w)). simpl. lia.
  - reflexivity.
Defined.

Lemma registerFile_entry_tracked_witness :
  1 <= 1 /\
  getFileStatus "b"
    (snd (registerFile scriptedHost "b" universe
            (run scriptedHost [RegisterFile "a" hello]
                 (smallService 1 [1; 2; 3; 4; 5] []))))
  = Some (mkEntry "b" universe READ_CURRENT 3 4 None).
Proof.
  split; [lia|].
  apply (registerFile_entry_tracked
           scriptedHost
           (run scriptedHost [RegisterFile "a" hello]
                (smallService 1 [1; 2; 3; 4; 5] []))
           "b" universe 3 (mkScript [4; 5] []) 4 (mkScript [5] [])).
  - reflexivity.
  - reflexivity.
  - simpl. lia.
  - simpl. unfold JsMap.size. simpl. lia.
  - repeat constructor. simpl. lia.
Defined.
